(** * EcoSim-AI: the island, terrain and water components

    A shallow embedding of the rendering components of the front end

      - [Island.tsx]  (elevation, hexagonal tiles, decorations),
      - [Terrain.tsx] (vegetation health, season tint),
      - [Water.tsx], in its two variants (wave displacement, colours),

    and the properties of them that the specification states.

    Conventions.  A JavaScript [number] and a GLSL [float] are read as a real
    number ([R]): rounding, infinities and NaN are outside the model.  Grid
    coordinates and populations are integers ([Z]) and are injected with
    [IZR] where the code does arithmetic on them.  A [Map], and the own
    properties of an object, are a [gmap string _]; [undefined] is [None].
    Reading a property of an object literal also finds what the object
    inherits from [Object.prototype] ([getProperty]).  [Math.random()] is
    read from a sequence [random : nat -> R], the position in the sequence
    being threaded as state together with the array the code pushes to. *)

From Stdlib Require Import Reals Lra Lia ZArith Ascii.
From stdpp Require Import base option list strings pretty gmap.

#[local] Open Scope R_scope.

(** ** Numbers *)

(** The comparison [a < b] of two numbers, as a test. *)
Definition Rltb (a b : R) : bool := if Rlt_dec a b then true else false.

(** The comparison [a > b]. *)
Definition Rgtb (a b : R) : bool := Rltb b a.

(** [v || 0] on a number that may be [undefined]: [undefined] and [0] give
    [0], every other number gives itself. *)
Definition or0 (v : option R) : R :=
  match v with
  | Some e => if Req_dec_T e 0 then 0 else e
  | None => 0
  end.

(** A position [[x, y, z]]. *)
Definition Vec3 : Type := R * R * R.

Definition vx (p : Vec3) : R := p.1.1.
Definition vy (p : Vec3) : R := p.1.2.
Definition vz (p : Vec3) : R := p.2.

Lemma Rltb_true a b : Rltb a b = true <-> a < b.
Proof. unfold Rltb. destruct (Rlt_dec a b); split; intros; (done || lra). Qed.

Lemma Rltb_false a b : Rltb a b = false <-> b <= a.
Proof. unfold Rltb. destruct (Rlt_dec a b); split; intros; (done || lra). Qed.

Lemma or0_Some e : or0 (Some e) = e.
Proof. unfold or0. destruct (Req_dec_T e 0); congruence. Qed.

(** ** Objects *)

(** What reading a property of an object literal with string values gives,
    and what a colour attribute is handed: a string, a member the object
    inherits from [Object.prototype], or [undefined]. *)
Inductive JsValue :=
| JsUndefined
| JsString (s : string)
| JsInherited (name : string).

(** The names of the properties of [Object.prototype]. *)
Definition objectPrototype : list string :=
  [ "constructor"; "__defineGetter__"; "__defineSetter__"; "hasOwnProperty";
    "__lookupGetter__"; "__lookupSetter__"; "isPrototypeOf";
    "propertyIsEnumerable"; "toString"; "valueOf"; "__proto__";
    "toLocaleString" ].

Definition inherited (name : string) : bool :=
  existsb (String.eqb name) objectPrototype.

(** [object[name]], for an object literal whose own properties are
    [object]: an own property first, then the prototype. *)
Definition getProperty (object : gmap string string) (name : string) : JsValue :=
  match object !! name with
  | Some s => JsString s
  | None => if inherited name then JsInherited name else JsUndefined
  end.

(** ** Island.tsx *)

Module Island.

(** *** Elevation *)

(** [const islandMask = Math.max(0, 1 - distFromCenter * 1.2)] *)
Definition islandMask (distFromCenter : R) : R :=
  Rmax 0 (1 - distFromCenter * 1.2).

(** [function getIslandElevation(x, y, gridSize, noise2D)] *)
Definition getIslandElevation (x y gridSize : R) (noise2D : R -> R -> R) : R :=
  let nx := (x / gridSize) * 2 - 1 in
  let ny := (y / gridSize) * 2 - 1 in
  let distFromCenter := sqrt (nx * nx + ny * ny) in
  let islandMask := islandMask distFromCenter in
  let noiseValue := (noise2D (x * 0.3) (y * 0.3) + 1) / 2 in
  let elevation := islandMask * islandMask * (0.5 + noiseValue * 0.5) in
  elevation.

(** The radial distance [getIslandElevation] computes on its way. *)
Definition distFromCenter (x y gridSize : R) : R :=
  let nx := (x / gridSize) * 2 - 1 in
  let ny := (y / gridSize) * 2 - 1 in
  sqrt (nx * nx + ny * ny).

(** *** Tiles *)

(** [interface Tile], of [../types]: a grid coordinate and a biome label. *)
Record Tile := mkTile { x : Z; y : Z; biome : string }.

(** The [<mesh>] element [TileHex] returns: its position, the arguments of
    its [cylinderGeometry] (top radius, bottom radius, height, sides), the
    colour and opacity of its material and the colour of its [Edges]. *)
Record Mesh := mkMesh {
  mesh_position : Vec3;
  radiusTop : R;
  radiusBottom : R;
  height : R;
  radialSegments : Z;
  material_color : JsValue;
  material_opacity : R;
  edges_color : string
}.

(** [function TileHex({ tile, elevation, gridSize, isSelected, onClick })].
    [BIOME_COLORS] is the table of [../types], an object literal given by
    its own properties; nothing checks that [tile.biome] is one of them. *)
Definition TileHex (BIOME_COLORS : gmap string string)
    (tile : Tile) (elevation gridSize : R) (isSelected : bool) : Mesh :=
  let color := getProperty BIOME_COLORS (biome tile) in
  let offset := gridSize / 2 - 0.5 in
  let height := 0.1 + elevation * 1.5 in
  {| mesh_position := (IZR (x tile) - offset, height / 2, IZR (y tile) - offset);
     radiusTop := 0.52;
     radiusBottom := 0.55;
     height := height;
     radialSegments := 6;
     material_color := if isSelected then JsString "#ffffff" else color;
     material_opacity := 0.9;
     edges_color := if isSelected then "#00ffff" else "#ffffff" |}.

(** A cylinder geometry is centred on the position of its mesh, so its top
    face lies half its height above that position. *)
Definition topFace (m : Mesh) : R := vy (mesh_position m) + height m / 2.

(** The template string [`${tile.x}-${tile.y}`]. *)
Definition key (tile : Tile) : string :=
  pretty (x tile) +:+ "-" +:+ pretty (y tile).

(** The [tileElevations] memo: a [Map] filled by [tiles.forEach]. *)
Definition tileElevations (noise2D : R -> R -> R) (tiles : list Tile)
    (gridSize : R) : gmap string R :=
  foldl (fun elevations tile =>
           <[ key tile :=
                getIslandElevation (IZR (x tile)) (IZR (y tile)) gridSize noise2D ]>
             elevations)
        ∅ tiles.

(** [selectedTile?.[0] === tile.x && selectedTile?.[1] === tile.y] *)
Definition isSelected (selectedTile : option (Z * Z)) (tile : Tile) : bool :=
  match selectedTile with
  | Some (sx, sy) => bool_decide (sx = x tile) && bool_decide (sy = y tile)
  | None => false
  end.

(** The callback of [tiles.map] in the returned group: [null] below the
    water level, a [TileHex] otherwise. *)
Definition renderTile (BIOME_COLORS : gmap string string)
    (tileElevations : gmap string R) (gridSize : R)
    (selectedTile : option (Z * Z)) (tile : Tile) : option Mesh :=
  let elevation := or0 (tileElevations !! key tile) in
  if Rltb elevation 0.08 then None
  else Some (TileHex BIOME_COLORS tile elevation gridSize (isSelected selectedTile tile)).

(** The tile meshes of the group; a [null] child renders nothing. *)
Definition tileMeshes (BIOME_COLORS : gmap string string)
    (tileElevations : gmap string R) (gridSize : R)
    (selectedTile : option (Z * Z)) (tiles : list Tile) : list Mesh :=
  omap (renderTile BIOME_COLORS tileElevations gridSize selectedTile) tiles.

(** *** Decorations *)

Inductive PropType := tree | rock | mountain.

(** An entry of the [items] array. *)
Record Item := mkItem { type : PropType; position : Vec3; scale : R }.

(** The state of the [props] memo while it runs: the [items] pushed so far
    and the number of values [Math.random()] has handed out. *)
Record St := mkSt { items : list Item; drawn : nat }.

Definition M (A : Type) : Type := St -> A * St.

Definition ret {A : Type} (a : A) : M A := fun st => (a, st).

Definition bind {A B : Type} (m : M A) (f : A -> M B) : M B :=
  fun st => let (a, st') := m st in f a st'.

Notation "'let*' x ':=' m 'in' k" := (bind m (fun x => k))
  (at level 10, x name, m at level 100, k at level 200).
Notation "m ';;' k" := (bind m (fun _ => k))
  (at level 100, k at level 200, right associativity).

(** [items.push(item)] *)
Definition push (item : Item) : M unit :=
  fun st => (tt, {| items := items st ++ [item]; drawn := drawn st |}).

(** [for (let i = 0; i < n; i++) body] *)
Fixpoint for_ (n : nat) (body : M unit) : M unit :=
  match n with
  | O => ret tt
  | S n => body ;; for_ n body
  end.

(** [l.forEach(f)] *)
Fixpoint forEach {A : Type} (l : list A) (f : A -> M unit) : M unit :=
  match l with
  | [] => ret tt
  | a :: l => f a ;; forEach l f
  end.

Section Props.

Variable random : nat -> R.

(** [Math.random()] *)
Definition Math_random : M R :=
  fun st => (random (drawn st), {| items := items st; drawn := S (drawn st) |}).

(** The body of the [for] loop of a forest tile. *)
Definition pushTree (baseX baseHeight baseZ : R) : M unit :=
  let* r1 := Math_random in
  let* r2 := Math_random in
  let* r3 := Math_random in
  push {| type := tree;
          position := (baseX + (r1 - 0.5) * 0.4, baseHeight, baseZ + (r2 - 0.5) * 0.4);
          scale := 0.7 + r3 * 0.4 |}.

(** What the callback of [tiles.forEach] does once a tile has passed the
    elevation test. *)
Definition decorate (gridSize : R) (tile : Tile) (elevation : R) : M unit :=
  let offset := gridSize / 2 - 0.5 in
  let baseHeight := 0.1 + elevation * 1.5 in
  let baseX := IZR (x tile) - offset in
  let baseZ := IZR (y tile) - offset in
  if decide (biome tile = "forest") then
    let* r := Math_random in
    let treeCount := (1 + Zfloor (r * 2))%Z in
    for_ (Z.to_nat treeCount) (pushTree baseX baseHeight baseZ)
  else if decide (biome tile = "mountain") then
    let* r := Math_random in
    push {| type := mountain;
            position := (baseX, baseHeight, baseZ);
            scale := 0.8 + r * 0.4 |}
  else if decide (biome tile = "grassland") then
    let* r := Math_random in
    if Rgtb r 0.7 then
      let* r1 := Math_random in
      let* r2 := Math_random in
      let* r3 := Math_random in
      push {| type := rock;
              position := (baseX + (r1 - 0.5) * 0.3, baseHeight, baseZ + (r2 - 0.5) * 0.3);
              scale := 0.5 + r3 * 0.5 |}
    else ret tt
  else ret tt.

(** The callback of [tiles.forEach] in the [props] memo. *)
Definition tileProps (gridSize : R) (tileElevations : gmap string R)
    (tile : Tile) : M unit :=
  let elevation := or0 (tileElevations !! key tile) in
  if Rltb elevation 0.15 then ret tt
  else decorate gridSize tile elevation.

(** The [props] memo. *)
Definition props (tiles : list Tile) (gridSize : R)
    (tileElevations : gmap string R) : list Item :=
  items (forEach tiles (tileProps gridSize tileElevations)
           {| items := []; drawn := 0 |}).2.

End Props.

(** What [Island] returns: the tile meshes and the decorations, each of
    which is rendered as a [Tree], [Rock] or [MountainPeak] at its position
    and scale. *)
Record Group := mkGroup { hexes : list Mesh; decorations : list Item }.

(** [export default function Island({ tiles, gridSize, selectedTile, onTileSelect })] *)
Definition Island (BIOME_COLORS : gmap string string) (noise2D : R -> R -> R)
    (random : nat -> R) (tiles : list Tile) (gridSize : R)
    (selectedTile : option (Z * Z)) : Group :=
  let tileElevations := tileElevations noise2D tiles gridSize in
  let props := props random tiles gridSize tileElevations in
  {| hexes := tileMeshes BIOME_COLORS tileElevations gridSize selectedTile tiles;
     decorations := props |}.

End Island.

(** ** Terrain.tsx *)

Module Terrain.

(** [interface Species], of [../types]: the two fields the component reads. *)
Record Species := mkSpecies { diet : string; population : Z }.

Record EcosystemState := mkEcosystemState {
  vegetationHealth : R;
  seasonTint : Vec3
}.

(** [const plants = species.filter(s => s.diet === 'producer')] *)
Definition plants (species : list Species) : list Species :=
  filter (fun s => diet s = "producer") species.

(** [const totalPlants = plants.reduce((sum, s) => sum + s.population, 0)] *)
Definition totalPlants (species : list Species) : Z :=
  foldl (fun sum s => (sum + population s)%Z) 0%Z (plants species).

(** The [switch (season)] of the memo. *)
Definition tintOf (season : string) : Vec3 :=
  if decide (season = "winter") then (0.9, 0.95, 1.1)
  else if decide (season = "spring") then (0.95, 1.1, 0.95)
  else if decide (season = "summer") then (1.1, 1.05, 0.9)
  else if decide (season = "fall") then (1.15, 0.95, 0.8)
  else (1.0, 1.0, 1.0).

(** The [ecosystemState] memo of [Terrain]. *)
Definition ecosystemState (species : list Species) (season : string)
    : EcosystemState :=
  if (length species =? 0)%nat then
    {| vegetationHealth := 1.0; seasonTint := (1.0, 1.0, 1.0) |}
  else
    let totalPlants := totalPlants species in
    let vegetationHealth := Rmin 1.0 (IZR totalPlants / 10000) in
    let seasonTint := tintOf season in
    {| vegetationHealth := vegetationHealth; seasonTint := seasonTint |}.

(** The value of the [vegetationHealth] uniform of the shader material. *)
Definition uniform_vegetationHealth (species : list Species) (season : string) : R :=
  vegetationHealth (ecosystemState species season).

(** GLSL [mix(a, b, t)]. *)
Definition mix (a b t : R) : R := a * (1 - t) + b * t.

(** The health blend of the fragment shader, on one pixel of the colour map:
    [mix(unhealthyColor, healthyColor, vegetationHealth)]. *)
Definition healthBlend (baseColor : Vec3) (vegetationHealth : R) : Vec3 :=
  let healthyColor := baseColor in
  let unhealthyColor := (vx baseColor * 1.2, vy baseColor * 0.7, vz baseColor * 0.5) in
  (mix (vx unhealthyColor) (vx healthyColor) vegetationHealth,
   mix (vy unhealthyColor) (vy healthyColor) vegetationHealth,
   mix (vz unhealthyColor) (vz healthyColor) vegetationHealth).

End Terrain.

(** ** Water.tsx *)

(** A [THREE.Color]. *)
Record Color := mkColor { red : R; green : R; blue : R }.

(** [THREE.Color.lerp(color, alpha)]: each channel moves from its value
    towards that of [color] by the fraction [alpha]. *)
Definition lerp (this color : Color) (alpha : R) : Color :=
  {| red := red this + (red color - red this) * alpha;
     green := green this + (green color - green this) * alpha;
     blue := blue this + (blue color - blue this) * alpha |}.

(** GLSL [clamp(x, lo, hi)] and [smoothstep(edge0, edge1, x)]. *)
Definition clamp (x lo hi : R) : R := Rmin (Rmax x lo) hi.

Definition smoothstep (edge0 edge1 x : R) : R :=
  let t := clamp ((x - edge0) / (edge1 - edge0)) 0 1 in
  t * t * (3 - 2 * t).

(** The variant of the ocean that is tinted by the health of the ecosystem. *)
Module Water.

(** The vertex shader: three sine waves, summed. *)
Definition wave1 (pos : Vec3) (uTime : R) : R := sin (vx pos * 2.0 + uTime * 0.5) * 0.05.
Definition wave2 (pos : Vec3) (uTime : R) : R := sin (vy pos * 3.0 + uTime * 0.7) * 0.03.
Definition wave3 (pos : Vec3) (uTime : R) : R :=
  sin ((vx pos + vy pos) * 1.5 + uTime * 0.3) * 0.04.

Definition displacement (pos : Vec3) (uTime : R) : R :=
  wave1 pos uTime + wave2 pos uTime + wave3 pos uTime.

(** [pos.z += wave1 + wave2 + wave3; vElevation = pos.z] *)
Definition vElevation (pos : Vec3) (uTime : R) : R := vz pos + displacement pos uTime.

(** The foam term of the fragment shader. *)
Definition foam (vElevation : R) : R := smoothstep 0.08 0.12 vElevation.

(** The result of the [colors] memo. *)
Record Colors := mkColors {
  color : Color;
  deepColor : Color;
  foamColor : Color;
  opacity : R
}.

(** The [colors] memo of [Water].  [parseColor] is [new THREE.Color(hex)]. *)
Definition colors (parseColor : string -> Color) (ecosystemHealth : R) : Colors :=
  let healthyColor := parseColor "#1E90FF" in
  let healthyDeep := parseColor "#0066CC" in
  let healthyFoam := parseColor "#87CEEB" in
  let unhealthyColor := parseColor "#4A5D4A" in
  let unhealthyDeep := parseColor "#2F3D2F" in
  let unhealthyFoam := parseColor "#6B7B6B" in
  {| color := lerp healthyColor unhealthyColor (1 - ecosystemHealth);
     deepColor := lerp healthyDeep unhealthyDeep (1 - ecosystemHealth);
     foamColor := lerp healthyFoam unhealthyFoam (1 - ecosystemHealth);
     opacity := 0.9 + ecosystemHealth * 0.05 |}.

End Water.

(** The plain, dark variant of the ocean. *)
Module WaterDark.

Definition wave1 (pos : Vec3) (uTime : R) : R := sin (vx pos * 2.0 + uTime * 0.5) * 0.05.
Definition wave2 (pos : Vec3) (uTime : R) : R := sin (vy pos * 3.0 + uTime * 0.7) * 0.03.
Definition wave3 (pos : Vec3) (uTime : R) : R :=
  sin ((vx pos + vy pos) * 1.5 + uTime * 0.3) * 0.04.

Definition displacement (pos : Vec3) (uTime : R) : R :=
  wave1 pos uTime + wave2 pos uTime + wave3 pos uTime.

Definition vElevation (pos : Vec3) (uTime : R) : R := vz pos + displacement pos uTime.

Definition foam (vElevation : R) : R := smoothstep 0.08 0.12 vElevation.

End WaterDark.

(** ** Island.tsx: the decoration components *)

Module Decor.
Import Island.

Inductive Geometry :=
| cylinderGeometry (radiusTop radiusBottom height : R) (radialSegments : Z)
| coneGeometry (radius height : R) (radialSegments : Z)
| dodecahedronGeometry (radius : R) (detail : Z).

(** A [<mesh>] inside a decoration: its position in the frame of the
    decoration, its geometry and the colour of its material. *)
Record Part := mkPart {
  part_position : Vec3;
  geometry : Geometry;
  part_color : string
}.

(** A decoration as it is handed to the scene: the position, scale and
    rotation of its [<group>] (of its [<mesh>], for a rock) and the meshes
    it holds. *)
Record Object3D := mkObject3D {
  obj_position : Vec3;
  obj_scale : R;
  obj_rotation : Vec3;
  parts : list Part
}.

(** [function Tree({ position, scale = 1 })] *)
Definition Tree (position : Vec3) (scale : R) : Object3D :=
  {| obj_position := position;
     obj_scale := scale;
     obj_rotation := (0, 0, 0);
     parts :=
       [ {| part_position := (0, 0.15, 0);
            geometry := cylinderGeometry 0.03 0.05 0.3 6;
            part_color := "#3d2817" |};
         {| part_position := (0, 0.4, 0);
            geometry := coneGeometry 0.2 0.35 6;
            part_color := "#1a4025" |};
         {| part_position := (0, 0.55, 0);
            geometry := coneGeometry 0.15 0.25 6;
            part_color := "#245530" |} ] |}.

(** [function Rock({ position, scale = 1 })]; [random] is the value its
    call of [Math.random()] returns. *)
Definition Rock (random : R) (position : Vec3) (scale : R) : Object3D :=
  {| obj_position := position;
     obj_scale := scale;
     obj_rotation := (0, random * PI, 0);
     parts :=
       [ {| part_position := (0, 0, 0);
            geometry := dodecahedronGeometry 0.15 0;
            part_color := "#5a5a6e" |} ] |}.

(** [function MountainPeak({ position, scale = 1 })] *)
Definition MountainPeak (position : Vec3) (scale : R) : Object3D :=
  {| obj_position := position;
     obj_scale := scale;
     obj_rotation := (0, 0, 0);
     parts :=
       [ {| part_position := (0, 0, 0);
            geometry := coneGeometry 0.4 0.8 5;
            part_color := "#6a6a7e" |};
         {| part_position := (0, 0.3, 0);
            geometry := coneGeometry 0.15 0.25 5;
            part_color := "#e8e8f0" |} ] |}.

(** The callback of [props.map] in the group [Island] returns. *)
Definition renderProp (random : R) (prop : Item) : Object3D :=
  match type prop with
  | tree => Tree (position prop) (scale prop)
  | rock => Rock random (position prop) (scale prop)
  | mountain => MountainPeak (position prop) (scale prop)
  end.

End Decor.

(** ** Terrain.tsx: the shader material *)

Module TerrainShader.

Definition dot (a b : Vec3) : R := vx a * vx b + vy a * vy b + vz a * vz b.

(** GLSL [normalize(v)]. *)
Definition normalize (v : Vec3) : Vec3 :=
  let len := sqrt (dot v v) in
  (vx v / len, vy v / len, vz v / len).

(** The uniforms the material is created with, and that the effect keeps
    up to date, apart from the three textures. *)
Record Uniforms := mkUniforms {
  displacementScale : R;
  clipThreshold : R;
  vegetationHealth : R;
  seasonTint : Vec3
}.

Definition material (species : list Terrain.Species) (season : string) : Uniforms :=
  let ecosystemState := Terrain.ecosystemState species season in
  {| displacementScale := 1.0;
     clipThreshold := 0.15;
     vegetationHealth := Terrain.vegetationHealth ecosystemState;
     seasonTint := Terrain.seasonTint ecosystemState |}.

(** The vertex shader: [dispTexel_r] is the red channel of the displacement
    map at the vertex.  It returns the new position and [vDisplacement]. *)
Definition vertex (u : Uniforms) (position normal : Vec3) (dispTexel_r : R)
    : Vec3 * R :=
  let vDisplacement := dispTexel_r in
  let k := dispTexel_r * displacementScale u in
  let newPosition :=
    (vx position + vx normal * k, vy position + vy normal * k,
     vz position + vz normal * k) in
  (newPosition, vDisplacement).

(** The fragment shader: [baseColor] is the colour map at the fragment;
    [None] is [discard], otherwise the colour written with alpha [1]. *)
Definition fragment (u : Uniforms) (baseColor : Vec3) (vDisplacement : R)
    (vNormal : Vec3) : option Vec3 :=
  if Rltb vDisplacement (clipThreshold u) then None
  else
    let color := Terrain.healthBlend baseColor (vegetationHealth u) in
    let color :=
      (vx color * vx (seasonTint u), vy color * vy (seasonTint u),
       vz color * vz (seasonTint u)) in
    let elevationShade := 0.7 + vDisplacement * 0.5 in
    let lightDir := normalize (0.5, 1.0, 0.3) in
    let diffuse := Rmax (dot vNormal lightDir) 0.3 in
    Some (vx color * elevationShade * diffuse,
          vy color * elevationShade * diffuse,
          vz color * elevationShade * diffuse).

End TerrainShader.

(** ** Water.tsx: the fragment shaders and the frame callback *)

Module WaterShader.

(** GLSL [mix(a, b, t)] on colours. *)
Definition mix (a b : Color) (t : R) : Color :=
  {| red := red a * (1 - t) + red b * t;
     green := green a * (1 - t) + green b * t;
     blue := blue a * (1 - t) + blue b * t |}.

Record Uniforms := mkUniforms {
  uTime : R;
  uColor : Color;
  uDeepColor : Color;
  uFoamColor : Color;
  uOpacity : R
}.

(** The uniforms the two materials are declared with. *)
Definition defaults (parseColor : string -> Color) : Uniforms :=
  {| uTime := 0;
     uColor := parseColor "#1E90FF";
     uDeepColor := parseColor "#0066CC";
     uFoamColor := parseColor "#87CEEB";
     uOpacity := 0.92 |}.

Definition defaultsDark (parseColor : string -> Color) : Uniforms :=
  {| uTime := 0;
     uColor := parseColor "#1a3a4a";
     uDeepColor := parseColor "#0a1a2a";
     uFoamColor := parseColor "#4a8090";
     uOpacity := 0.85 |}.

(** The blend factor of the deep and the shallow colour. *)
Definition depthFactor (vElevation : R) : R := vElevation * 5.0 + 0.5.

Definition shimmer (u : Uniforms) (vUv : R * R) : R :=
  sin (vUv.1 * 50.0 + uTime u) * sin (vUv.2 * 50.0 + uTime u * 0.7).

(** The colour both fragment shaders compute. *)
Definition fragmentColor (u : Uniforms) (vUv : R * R) (vElevation : R) : Color :=
  let color := mix (uDeepColor u) (uColor u) (depthFactor vElevation) in
  let foam := smoothstep 0.08 0.12 vElevation in
  let color := mix color (uFoamColor u) (foam * 0.3) in
  let shimmer := shimmer u vUv in
  {| red := red color + shimmer * 0.02;
     green := green color + shimmer * 0.02;
     blue := blue color + shimmer * 0.02 |}.

(** The fade towards the edge of the plane, in the variant tinted by the
    health of the ecosystem. *)
Definition edgeFade (vUv : R * R) : R :=
  let center := (vUv.1 - 0.5, vUv.2 - 0.5) in
  let dist := sqrt (center.1 * center.1 + center.2 * center.2) * 2.0 in
  1.0 - smoothstep 0.7 1.0 dist.

(** [gl_FragColor], colour and alpha, of the two variants. *)
Definition fragment (u : Uniforms) (vUv : R * R) (vElevation : R) : Color * R :=
  (fragmentColor u vUv vElevation, uOpacity u * edgeFade vUv).

Definition fragmentDark (u : Uniforms) (vUv : R * R) (vElevation : R) : Color * R :=
  (fragmentColor u vUv vElevation, uOpacity u).

(** The callback of [useFrame]: [current] is [materialRef.current], the
    uniforms of the material once it is mounted. *)
Definition useFrame (colors : Water.Colors) (elapsedTime : R)
    (current : option Uniforms) : option Uniforms :=
  match current with
  | Some _ =>
      Some {| uTime := elapsedTime;
              uColor := Water.color colors;
              uDeepColor := Water.deepColor colors;
              uFoamColor := Water.foamColor colors;
              uOpacity := Water.opacity colors |}
  | None => None
  end.

Definition useFrameDark (elapsedTime : R) (current : option Uniforms)
    : option Uniforms :=
  match current with
  | Some u =>
      Some {| uTime := elapsedTime;
              uColor := uColor u;
              uDeepColor := uDeepColor u;
              uFoamColor := uFoamColor u;
              uOpacity := uOpacity u |}
  | None => None
  end.

End WaterShader.

(** ** App.tsx *)

Module App.

(** A value as [JSON.parse] returns it.  The fields of an object are listed
    with each key once. *)
#[warnings="-register-all"]
Inductive JSON :=
| JNull
| JBool (b : bool)
| JNum (n : R)
| JStr (s : string)
| JArr (elements : list JSON)
| JObj (fields : list (string * JSON)).

(** Whether a value, or [undefined] ([None]), counts as true. *)
Definition truthy (v : option JSON) : bool :=
  match v with
  | None => false
  | Some JNull => false
  | Some (JBool b) => b
  | Some (JNum n) => if Req_dec_T n 0 then false else true
  | Some (JStr s) => if decide (s = "") then false else true
  | Some (JArr _) => true
  | Some (JObj _) => true
  end.

(** [a || b] *)
Definition orElse (a : option JSON) (b : JSON) : JSON :=
  match a with
  | Some v => if truthy a then v else b
  | None => b
  end.

(** What a [catch] clause receives: an [Error] with its message, or any
    other value. *)
Inductive Thrown := ErrorObject (message : string) | OtherValue.

(** How a block or an awaited promise ends. *)
Inductive Result (A : Type) := Ok (a : A) | Throw (err : Thrown).
Arguments Ok {A} a.
Arguments Throw {A} err.

Definition bindR {A B : Type} (m : Result A) (f : A -> Result B) : Result B :=
  match m with
  | Ok a => f a
  | Throw err => Throw err
  end.

Notation "'try*' x ':=' m 'in' k" := (bindR m (fun x => k))
  (at level 10, x name, m at level 100, k at level 200).

Fixpoint assoc (key : string) (fields : list (string * JSON)) : option JSON :=
  match fields with
  | [] => None
  | (k, v) :: rest => if String.eqb k key then Some v else assoc key rest
  end.

(** [v.key], for the keys the component reads: reading a property of
    [null] throws a [TypeError], whose message is [typeError]; a value that
    is not an object has none of these properties. *)
Definition getField (typeError : string) (v : JSON) (key : string)
    : Result (option JSON) :=
  match v with
  | JNull => Throw (ErrorObject typeError)
  | JObj fields => Ok (assoc key fields)
  | _ => Ok None
  end.

(** The state of the component. *)
Record State := mkState {
  ecosystem : option JSON;
  isLoading : bool;
  events : JSON;
  narration : JSON;
  warnings : JSON;
  error : option string;
  sidebarOpen : bool
}.

(** The state [App] starts with. *)
Definition initial : State :=
  {| ecosystem := None;
     isLoading := false;
     events := JArr [];
     narration := JStr "";
     warnings := JArr [];
     error := None;
     sidebarOpen := true |}.

Definition setEcosystem (v : option JSON) (st : State) : State :=
  mkState v (isLoading st) (events st) (narration st) (warnings st) (error st)
    (sidebarOpen st).

Definition setIsLoading (v : bool) (st : State) : State :=
  mkState (ecosystem st) v (events st) (narration st) (warnings st) (error st)
    (sidebarOpen st).

Definition setEvents (v : JSON) (st : State) : State :=
  mkState (ecosystem st) (isLoading st) v (narration st) (warnings st) (error st)
    (sidebarOpen st).

Definition setNarration (v : JSON) (st : State) : State :=
  mkState (ecosystem st) (isLoading st) (events st) v (warnings st) (error st)
    (sidebarOpen st).

Definition setWarnings (v : JSON) (st : State) : State :=
  mkState (ecosystem st) (isLoading st) (events st) (narration st) v (error st)
    (sidebarOpen st).

Definition setError (v : option string) (st : State) : State :=
  mkState (ecosystem st) (isLoading st) (events st) (narration st) (warnings st) v
    (sidebarOpen st).

(** [toggleSidebar] *)
Definition toggleSidebar (st : State) : State :=
  mkState (ecosystem st) (isLoading st) (events st) (narration st) (warnings st)
    (error st) (negb (sidebarOpen st)).

(** The double quote character. *)
Definition quote : string := String (ascii_of_nat 34) EmptyString.

(** [initializeEcosystem]; [createEcosystem] is the call of the backend. *)
Definition initializeEcosystem (createEcosystem : R -> Result JSON)
    (st : State) : State :=
  let st := setError None (setIsLoading true st) in
  let st :=
    match createEcosystem 8 with
    | Ok state =>
        setNarration
          (JStr ("A new ecosystem has been created. Click " +:+ quote +:+ "Advance Turn"
                 +:+ quote +:+ " to begin the simulation."))
          (setEcosystem (Some state) st)
    | Throw _ =>
        setError
          (Some "Failed to connect to backend. Make sure the server is running on localhost:8000")
          st
    end in
  setIsLoading false st.

(** What [advanceTurn] of the backend resolves to. *)
Record TurnResult := mkTurnResult {
  new_state : JSON;
  turn_events : JSON;
  turn_narration : JSON;
  turn_warnings : JSON
}.

(** [handleAdvanceTurn(intervention)] *)
Definition handleAdvanceTurn {I : Type} (advanceTurn : option I -> Result TurnResult)
    (intervention : option I) (st : State) : State :=
  if negb (truthy (ecosystem st)) then st
  else
    let st := setError None (setIsLoading true st) in
    let st :=
      match advanceTurn intervention with
      | Ok result =>
          setWarnings (turn_warnings result)
            (setNarration (turn_narration result)
               (setEvents (turn_events result)
                  (setEcosystem (Some (new_state result)) st)))
      | Throw _ =>
          setError (Some "Failed to advance simulation. Check the backend logs.") st
      end in
    setIsLoading false st.

(** The object [handleSave] hands to [JSON.stringify]; [None] when it
    returns at once.  [savedAt] is [new Date().toISOString()]. *)
Definition saveData (savedAt : string) (st : State) : option JSON :=
  if negb (truthy (ecosystem st)) then None
  else
    match ecosystem st with
    | Some ecosystem =>
        Some (JObj [ ("version", JNum 1);
                     ("savedAt", JStr savedAt);
                     ("ecosystem", ecosystem);
                     ("events", events st);
                     ("narration", narration st) ])
    | None => None
    end.

(** The value the [try] block of [handleLoad] sends to the backend: the
    [ecosystem] of a save file, or the file itself when it has the fields of
    an ecosystem.  Where [saveData.ecosystem] is truthy it is not
    [undefined]. *)
Definition ecosystemToLoad (typeError : string) (saveData : JSON) : Result JSON :=
  try* version := getField typeError saveData "version" in
  try* ecosystem := getField typeError saveData "ecosystem" in
  if truthy version && truthy ecosystem then Ok (default JNull ecosystem)
  else
    try* species := getField typeError saveData "species" in
    try* tiles := getField typeError saveData "tiles" in
    if truthy species && truthy tiles then Ok saveData
    else Throw (ErrorObject "Invalid save file format - missing required data").

(** [err instanceof Error ? err.message : 'Unknown error'] *)
Definition errorMessage (err : Thrown) : string :=
  match err with
  | ErrorObject message => message
  | OtherValue => "Unknown error"
  end.

(** [handleLoad(file)]: [fileText] is how [file.text()] ends, [JSON_parse]
    is [JSON.parse] ([None] when it throws) and [loadEcosystem] is the call
    of the backend. *)
Definition handleLoad (typeError : string) (JSON_parse : string -> option JSON)
    (loadEcosystem : JSON -> Result JSON) (fileText : Result string)
    (st : State) : State :=
  let st := setError None (setIsLoading true st) in
  let attempt : Result State :=
    try* text := fileText in
    try* saveData :=
      match JSON_parse text with
      | Some v => Ok v
      | None => Throw (ErrorObject "Invalid JSON file")
      end in
    try* ecosystemToLoad := ecosystemToLoad typeError saveData in
    try* loadedState := loadEcosystem ecosystemToLoad in
    try* events := getField typeError saveData "events" in
    try* narration := getField typeError saveData "narration" in
    Ok (setWarnings (JArr [])
          (setNarration (orElse narration (JStr "Save file loaded successfully!"))
             (setEvents (orElse events (JArr []))
                (setEcosystem (Some loadedState) st)))) in
  let st :=
    match attempt with
    | Ok st' => st'
    | Throw err => setError (Some ("Failed to load: " +:+ errorMessage err)) st
    end in
  setIsLoading false st.

(** What [App] returns. *)
Inductive Screen :=
| Spinner
| ErrorPage (message : string)
| Nothing
| MainView (banner : option string) (sidebar : bool) (loading : bool).

Definition truthyError (e : option string) : bool :=
  match e with
  | Some s => if decide (s = "") then false else true
  | None => false
  end.

Definition render (st : State) : Screen :=
  if negb (truthy (ecosystem st)) && isLoading st then Spinner
  else if truthyError (error st) && negb (truthy (ecosystem st)) then
    ErrorPage (default "" (error st))
  else if negb (truthy (ecosystem st)) then Nothing
  else
    MainView (if truthyError (error st) then error st else None)
             (sidebarOpen st) (isLoading st).

End App.

(** * Notions used in the statements *)

Module Notions.
Import Island.

(** A grid of one tile, [(4,4)], whose elevation is [0.5]. *)
Definition forestTile : Tile := mkTile 4 4 "forest".
Definition elevsHalf : gmap string R := {[ "4-4" := 0.5 ]}.

(** A table with the five biomes the specification names.  The colours are
    placeholders: the table of [../types] is not part of the sources, and no
    statement below depends on them. *)
Definition sampleColors : gmap string string :=
  {[ "water" := "#1e90ff"; "beach" := "#f4d58d"; "grassland" := "#7ec850";
     "forest" := "#228b22"; "mountain" := "#8d8d8d" ]}.

(** A string without the character [-]. *)
Fixpoint noDash (s : string) : Prop :=
  match s with
  | EmptyString => True
  | String c s => c <> "-"%char /\ noDash s
  end.

(** The sum of the populations of the species whose diet is ['producer'],
    as the specification words it. *)
Fixpoint totalProducerPopulation (species : list Terrain.Species) : Z :=
  match species with
  | [] => 0
  | s :: rest =>
      if decide (Terrain.diet s = "producer")
      then (Terrain.population s + totalProducerPopulation rest)%Z
      else totalProducerPopulation rest
  end.

(** A scalar clamped to [[0,1]], as the specification asks of health values. *)
Definition clamp01 (h : R) : R := clamp h 0 1.

(** The value of a hexadecimal digit. *)
Definition hexDigit (c : ascii) : Z :=
  let n := Z.of_N (N_of_ascii c) in
  if (48 <=? n)%Z && (n <=? 57)%Z then (n - 48)%Z
  else if (65 <=? n)%Z && (n <=? 70)%Z then (n - 55)%Z
  else if (97 <=? n)%Z && (n <=? 102)%Z then (n - 87)%Z
  else 0%Z.

(** A reading of [new THREE.Color('#RRGGBB')] for the examples: each
    channel is its byte over 255, before any conversion between colour
    spaces.  The general statements hold for any [parseColor]. *)
Definition hexColor (s : string) : Color :=
  match s with
  | String "#"%char (String r1 (String r2 (String g1 (String g2
      (String b1 (String b2 EmptyString)))))) =>
      {| red := IZR (16 * hexDigit r1 + hexDigit r2) / 255;
         green := IZR (16 * hexDigit g1 + hexDigit g2) / 255;
         blue := IZR (16 * hexDigit b1 + hexDigit b2) / 255 |}
  | _ => {| red := 0; green := 0; blue := 0 |}
  end.

(** [x] lies between [a] and [b], in either order. *)
Definition between (a b x : R) : Prop := Rmin a b <= x <= Rmax a b.

(** Every channel of [c] lies between the channels of [a] and [b]. *)
Definition colorBetween (a b c : Color) : Prop :=
  between (red a) (red b) (red c)
  /\ between (green a) (green b) (green c)
  /\ between (blue a) (blue b) (blue c).

End Notions.

(** * Properties *)

(** ** The elevation model *)

Module ElevationSpec.
Import Island Notions.

Lemma getIslandElevation_unfold x y gridSize noise2D :
  getIslandElevation x y gridSize noise2D =
  islandMask (distFromCenter x y gridSize) * islandMask (distFromCenter x y gridSize)
  * (0.5 + (noise2D (x * 0.3) (y * 0.3) + 1) / 2 * 0.5).
Proof. reflexivity. Qed.

Lemma islandMask_nonneg d : 0 <= islandMask d.
Proof. unfold islandMask. apply Rmax_l. Qed.

Lemma islandMask_le_1 d : 0 <= d -> islandMask d <= 1.
Proof. intros Hd. unfold islandMask. apply Rmax_lub; lra. Qed.

Lemma islandMask_pos d : 0 < islandMask d -> islandMask d = 1 - d * 1.2.
Proof.
  unfold islandMask. intros H.
  destruct (Rle_dec 0 (1 - d * 1.2)) as [Hle|Hgt].
  - now rewrite Rmax_right.
  - rewrite Rmax_left in H by lra. lra.
Qed.

Lemma islandMask_antitone d1 d2 : d1 <= d2 -> islandMask d2 <= islandMask d1.
Proof.
  intros Hd. unfold islandMask.
  apply Rmax_lub; [apply Rmax_l|].
  eapply Rle_trans; [|apply Rmax_r]. lra.
Qed.

Lemma islandMask_strict d1 d2 :
  d1 < d2 -> 0 < islandMask d1 -> islandMask d2 < islandMask d1.
Proof.
  intros Hd Hpos. pose proof (islandMask_pos d1 Hpos) as E.
  rewrite E in Hpos |- *.
  unfold islandMask. apply Rmax_lub_lt; lra.
Qed.

Lemma islandMask_pos_iff d : 0 < islandMask d <-> d < 5 / 6.
Proof.
  unfold islandMask. split; intros H.
  - destruct (Rlt_dec d (5 / 6)) as [Hlt|Hge]; [exact Hlt|].
    rewrite Rmax_left in H by lra. lra.
  - eapply Rlt_le_trans; [|apply Rmax_r]. lra.
Qed.

Lemma islandMask_flat d : 5 / 6 <= d -> islandMask d = 0.
Proof. intros Hd. unfold islandMask. apply Rmax_left. lra. Qed.

Lemma distFromCenter_nonneg x y gridSize : 0 <= distFromCenter x y gridSize.
Proof. unfold distFromCenter. apply sqrt_pos. Qed.

Lemma distFromCenter_center gridSize :
  0 < gridSize -> distFromCenter (gridSize / 2) (gridSize / 2) gridSize = 0.
Proof.
  intros Hg. unfold distFromCenter. cbv zeta.
  replace (gridSize / 2 / gridSize * 2 - 1) with 0 by (field; lra).
  replace (0 * 0 + 0 * 0) with 0 by ring. apply sqrt_0.
Qed.

Lemma distFromCenter_corner gridSize :
  0 < gridSize -> distFromCenter 0 0 gridSize = sqrt 2.
Proof.
  intros Hg. unfold distFromCenter. cbv zeta. f_equal. field; lra.
Qed.

Lemma sqrt2_gt_1 : 1 < sqrt 2.
Proof. rewrite <- sqrt_1 at 1. apply sqrt_lt_1; lra. Qed.

Lemma islandMask_center : islandMask 0 = 1.
Proof. unfold islandMask. rewrite Rmax_right; lra. Qed.

Lemma islandMask_corner : islandMask (sqrt 2) = 0.
Proof. apply islandMask_flat. pose proof sqrt2_gt_1. lra. Qed.

(** The elevation lies in [[0,1]] when the noise sample lies in [[-1,1]]. *)
Lemma getIslandElevation_range x y gridSize noise2D :
  -1 <= noise2D (x * 0.3) (y * 0.3) <= 1 ->
  0 <= getIslandElevation x y gridSize noise2D <= 1.
Proof.
  intros Hn. rewrite getIslandElevation_unfold.
  pose proof (islandMask_nonneg (distFromCenter x y gridSize)) as H0.
  pose proof (islandMask_le_1 _ (distFromCenter_nonneg x y gridSize)) as H1.
  set (m := islandMask _) in *. set (n := noise2D _ _) in *.
  split; nra.
Qed.

(** C5.  For integers [x], [y] and [gridSize > 0] and a noise sample
    [n] in [[-1,1]] at [(x * 0.3, y * 0.3)], [getIslandElevation] returns
    [m^2 * (0.5 + 0.5 * noise)], where [nx = 2 * (x / gridSize) - 1],
    [ny = 2 * (y / gridSize) - 1], [d = sqrt (nx^2 + ny^2)],
    [m = max(0, 1 - d * 1.2)] and [noise = (n + 1) / 2]. *)
Theorem getIslandElevation_formula (x y gridSize : Z) (noise2D : R -> R -> R) :
  (0 < gridSize)%Z ->
  -1 <= noise2D (IZR x * 0.3) (IZR y * 0.3) <= 1 ->
  let n := noise2D (IZR x * 0.3) (IZR y * 0.3) in
  let nx := 2 * (IZR x / IZR gridSize) - 1 in
  let ny := 2 * (IZR y / IZR gridSize) - 1 in
  let d := sqrt (nx ^ 2 + ny ^ 2) in
  let m := Rmax 0 (1 - d * 1.2) in
  let noise := (n + 1) / 2 in
  getIslandElevation (IZR x) (IZR y) (IZR gridSize) noise2D
  = m ^ 2 * (0.5 + 0.5 * noise).
Proof.
  intros Hg Hn n nx ny d m noise.
  unfold getIslandElevation, islandMask. cbv zeta.
  replace (IZR x / IZR gridSize * 2 - 1) with nx by (unfold nx; ring).
  replace (IZR y / IZR gridSize * 2 - 1) with ny by (unfold ny; ring).
  replace (nx * nx + ny * ny) with (nx ^ 2 + ny ^ 2) by ring.
  fold d. fold m. fold n. unfold noise. ring.
Qed.

Lemma getIslandElevation_formula_witness :
  getIslandElevation (IZR 4) (IZR 4) (IZR 8) (fun _ _ => 0)
  = Rmax 0 (1 - sqrt ((2 * (IZR 4 / IZR 8) - 1) ^ 2 + (2 * (IZR 4 / IZR 8) - 1) ^ 2) * 1.2) ^ 2
    * (0.5 + 0.5 * ((0 + 1) / 2)).
Proof.
  apply (getIslandElevation_formula 4 4 8 (fun _ _ => 0)); [lia | lra].
Defined.

(** C6, as the code has it.  The island mask never increases with the
    distance from the centre, and decreases strictly as long as it is
    positive at the nearer point, that is below the distance [5/6]; with the same noise value at both points,
    the elevation at the centre of the grid is at least the elevation at any
    point, and at the far corner the elevation is [0]. *)
Theorem islandMask_monotone_center_highest
    (d1 d2 x y gridSize : R) (noise2D : R -> R -> R) :
  d1 < d2 ->
  0 < gridSize ->
  -1 <= noise2D (x * 0.3) (y * 0.3) ->
  noise2D (gridSize / 2 * 0.3) (gridSize / 2 * 0.3) = noise2D (x * 0.3) (y * 0.3) ->
  islandMask d2 <= islandMask d1
  /\ (0 < islandMask d1 <-> d1 < 5 / 6)
  /\ (0 < islandMask d1 -> islandMask d2 < islandMask d1)
  /\ getIslandElevation x y gridSize noise2D
     <= getIslandElevation (gridSize / 2) (gridSize / 2) gridSize noise2D
  /\ getIslandElevation 0 0 gridSize noise2D = 0.
Proof.
  intros Hd Hg Hn Hfix. split; [|split; [|split; [|split]]].
  - apply islandMask_antitone. lra.
  - apply islandMask_pos_iff.
  - now apply islandMask_strict.
  - rewrite !getIslandElevation_unfold, Hfix.
    rewrite (distFromCenter_center gridSize Hg), islandMask_center.
    pose proof (islandMask_nonneg (distFromCenter x y gridSize)) as H0.
    pose proof (islandMask_le_1 _ (distFromCenter_nonneg x y gridSize)) as H1.
    set (m := islandMask _) in *. set (n := noise2D _ _) in *.
    assert (0 <= 0.5 + (n + 1) / 2 * 0.5) by lra.
    assert (m * m <= 1) by nra.
    nra.
  - rewrite getIslandElevation_unfold, (distFromCenter_corner gridSize Hg).
    rewrite islandMask_corner. ring.
Qed.

Lemma islandMask_monotone_center_highest_witness :
  islandMask (1 / 2) <= islandMask 0
  /\ (0 < islandMask 0 <-> 0 < 5 / 6)
  /\ (0 < islandMask 0 -> islandMask (1 / 2) < islandMask 0)
  /\ getIslandElevation 0 0 8 (fun _ _ => 0)
     <= getIslandElevation (8 / 2) (8 / 2) 8 (fun _ _ => 0)
  /\ getIslandElevation 0 0 8 (fun _ _ => 0) = 0.
Proof.
  apply (islandMask_monotone_center_highest 0 (1 / 2) 0 0 8 (fun _ _ => 0)); lra.
Defined.

(** C6, as the specification words it, fails: beyond the distance [5/6] the
    mask is [0] and stays [0], so a larger distance does not always give a
    strictly smaller mask. *)
Lemma islandMask_not_strictly_decreasing :
  1 < 2 /\ ~ (islandMask 2 < islandMask 1).
Proof.
  split; [lra|].
  rewrite (islandMask_flat 1), (islandMask_flat 2) by lra. lra.
Qed.

End ElevationSpec.

(** ** Tiles and decorations *)

Module IslandSpec.
Import Island Notions.

Lemma vec3_eq (a b c a' b' c' : R) :
  a = a' -> b = b' -> c = c' -> ((a, b, c) : Vec3) = (a', b', c').
Proof. congruence. Qed.

Lemma renderTile_visible BIOME_COLORS (elevs : gmap string R) gridSize selectedTile tile :
  0.08 <= or0 (elevs !! key tile) ->
  renderTile BIOME_COLORS elevs gridSize selectedTile tile
  = Some (TileHex BIOME_COLORS tile (or0 (elevs !! key tile)) gridSize
            (isSelected selectedTile tile)).
Proof.
  intros He. unfold renderTile. cbv zeta.
  apply Rltb_false in He. now rewrite He.
Qed.

Lemma renderTile_culled BIOME_COLORS (elevs : gmap string R) gridSize selectedTile tile :
  or0 (elevs !! key tile) < 0.08 ->
  renderTile BIOME_COLORS elevs gridSize selectedTile tile = None.
Proof.
  intros He. unfold renderTile. cbv zeta.
  apply Rltb_true in He. now rewrite He.
Qed.

Lemma topFace_TileHex BIOME_COLORS tile elevation gridSize isSelected :
  topFace (TileHex BIOME_COLORS tile elevation gridSize isSelected)
  = 0.1 + elevation * 1.5.
Proof. unfold topFace, TileHex, vy. simpl. lra. Qed.

Section Decorations.

Variable random : nat -> R.
Variable gridSize : R.

Lemma tileProps_skip (elevs : gmap string R) tile st :
  or0 (elevs !! key tile) < 0.15 ->
  tileProps random gridSize elevs tile st = (tt, st).
Proof.
  intros He. unfold tileProps. cbv zeta.
  apply Rltb_true in He. now rewrite He.
Qed.

Lemma tileProps_decorate (elevs : gmap string R) tile st :
  0.15 <= or0 (elevs !! key tile) ->
  tileProps random gridSize elevs tile st
  = decorate random gridSize tile (or0 (elevs !! key tile)) st.
Proof.
  intros He. unfold tileProps. cbv zeta.
  apply Rltb_false in He. now rewrite He.
Qed.

Lemma decorate_mountain tile elevation st :
  biome tile = "mountain" ->
  decorate random gridSize tile elevation st
  = (tt, {| items := items st ++
                     [ {| type := mountain;
                          position := (IZR (x tile) - (gridSize / 2 - 0.5),
                                       0.1 + elevation * 1.5,
                                       IZR (y tile) - (gridSize / 2 - 0.5));
                          scale := 0.8 + random (drawn st) * 0.4 |} ];
            drawn := S (drawn st) |}).
Proof.
  intros Hb. unfold decorate. rewrite Hb. cbv zeta.
  destruct (decide _) as [?|_]; [done|].
  destruct (decide _) as [_|?]; [|done].
  reflexivity.
Qed.

Lemma decorate_forest tile elevation st :
  biome tile = "forest" ->
  decorate random gridSize tile elevation st
  = for_ (Z.to_nat (1 + Zfloor (random (drawn st) * 2)))
         (pushTree random (IZR (x tile) - (gridSize / 2 - 0.5))
                   (0.1 + elevation * 1.5)
                   (IZR (y tile) - (gridSize / 2 - 0.5)))
         {| items := items st; drawn := S (drawn st) |}.
Proof.
  intros Hb. unfold decorate. rewrite Hb. cbv zeta.
  destruct (decide _) as [_|?]; [|done].
  reflexivity.
Qed.

Lemma decorate_grassland_rock tile elevation st :
  biome tile = "grassland" ->
  0.7 < random (drawn st) ->
  decorate random gridSize tile elevation st
  = (tt, {| items := items st ++
                     [ {| type := rock;
                          position :=
                            (IZR (x tile) - (gridSize / 2 - 0.5)
                               + (random (S (drawn st)) - 0.5) * 0.3,
                             0.1 + elevation * 1.5,
                             IZR (y tile) - (gridSize / 2 - 0.5)
                               + (random (S (S (drawn st))) - 0.5) * 0.3);
                          scale := 0.5 + random (S (S (S (drawn st)))) * 0.5 |} ];
            drawn := S (S (S (S (drawn st)))) |}).
Proof.
  intros Hb Hr. unfold decorate. rewrite Hb. cbv zeta.
  destruct (decide _) as [?|_]; [done|].
  destruct (decide _) as [?|_]; [done|].
  destruct (decide _) as [_|?]; [|done].
  unfold bind at 1. simpl. unfold Rgtb.
  apply Rltb_true in Hr. rewrite Hr. reflexivity.
Qed.

Lemma decorate_grassland_bare tile elevation st :
  biome tile = "grassland" ->
  random (drawn st) <= 0.7 ->
  decorate random gridSize tile elevation st
  = (tt, {| items := items st; drawn := S (drawn st) |}).
Proof.
  intros Hb Hr. unfold decorate. rewrite Hb. cbv zeta.
  destruct (decide _) as [?|_]; [done|].
  destruct (decide _) as [?|_]; [done|].
  destruct (decide _) as [_|?]; [|done].
  unfold bind at 1. simpl. unfold Rgtb.
  apply Rltb_false in Hr. rewrite Hr. reflexivity.
Qed.

Lemma decorate_other tile elevation st :
  biome tile <> "forest" -> biome tile <> "mountain" -> biome tile <> "grassland" ->
  decorate random gridSize tile elevation st = (tt, st).
Proof.
  intros H1 H2 H3. unfold decorate. cbv zeta.
  destruct (decide _) as [?|_]; [done|].
  destruct (decide _) as [?|_]; [done|].
  destruct (decide _) as [?|_]; [done|].
  reflexivity.
Qed.

(** The [for] loop of a forest tile pushes one tree per round, each at the
    base height. *)
Lemma for_pushTree baseX baseHeight baseZ n : forall st,
  exists new,
    for_ n (pushTree random baseX baseHeight baseZ) st
    = (tt, {| items := items st ++ new; drawn := (drawn st + 3 * n)%nat |})
    /\ length new = n
    /\ Forall (fun it => type it = tree /\ vy (position it) = baseHeight) new.
Proof.
  induction n as [|n IH]; intros st.
  - exists []. simpl. unfold ret. rewrite app_nil_r, Nat.add_0_r.
    destruct st; auto.
  - simpl. unfold bind at 1.
    unfold pushTree at 1. unfold bind, Math_random, push. simpl.
    match goal with |- context [for_ n _ ?s] => destruct (IH s) as (new & E & Hlen & Hall) end.
    eexists (_ :: new). rewrite E. simpl. split; [|split].
    + rewrite <- app_assoc. simpl. do 2 f_equal. lia.
    + now rewrite Hlen.
    + constructor; [split; reflexivity | exact Hall].
Qed.

Lemma treeCount_range r :
  0 <= r < 1 -> (1 <= Z.to_nat (1 + Zfloor (r * 2)) <= 2)%nat.
Proof.
  intros [H0 H1].
  assert (0 <= Zfloor (r * 2))%Z by (apply Zfloor_lub; simpl; lra).
  assert (Zfloor (r * 2) < 2)%Z.
  { apply lt_IZR. pose proof (Zfloor_bound (r * 2)). lra. }
  lia.
Qed.

(** Whatever the callback of the [props] memo pushes for a tile lies at the
    render height of that tile, and the tile has passed the elevation test. *)
Lemma tileProps_emits (elevs : gmap string R) tile st :
  exists new,
    items (tileProps random gridSize elevs tile st).2 = items st ++ new
    /\ Forall (fun it => 0.15 <= or0 (elevs !! key tile)
                         /\ vy (position it) = 0.1 + or0 (elevs !! key tile) * 1.5) new.
Proof.
  set (e := or0 (elevs !! key tile)).
  destruct (Rlt_dec e 0.15) as [Hlt|Hge].
  { exists []. rewrite tileProps_skip by exact Hlt. simpl.
    now rewrite app_nil_r. }
  apply Rnot_lt_le in Hge. rewrite tileProps_decorate by exact Hge. fold e.
  destruct (decide (biome tile = "forest")) as [Hf|Hf].
  { rewrite decorate_forest by exact Hf.
    match goal with |- context [for_ ?n ?b ?s] =>
      destruct (for_pushTree (IZR (x tile) - (gridSize / 2 - 0.5)) (0.1 + e * 1.5)
                  (IZR (y tile) - (gridSize / 2 - 0.5)) n s) as (new & E & _ & Hall)
    end.
    exists new. rewrite E. simpl. split; [done|].
    eapply Forall_impl; [exact Hall|]. intros it [_ Hy]. auto. }
  destruct (decide (biome tile = "mountain")) as [Hm|Hm].
  { rewrite decorate_mountain by exact Hm. eexists. simpl. split; [done|].
    constructor; [|constructor]. split; [exact Hge | reflexivity]. }
  destruct (decide (biome tile = "grassland")) as [Hg|Hg].
  { destruct (Rlt_dec 0.7 (random (drawn st))) as [Hr|Hr].
    - rewrite decorate_grassland_rock by assumption. eexists. simpl. split; [done|].
      constructor; [|constructor]. split; [exact Hge | reflexivity].
    - apply Rnot_lt_le in Hr. rewrite decorate_grassland_bare by assumption.
      exists []. simpl. now rewrite app_nil_r. }
  rewrite decorate_other by assumption. exists []. now rewrite app_nil_r.
Qed.

End Decorations.

(** A property of what each callback pushes is a property of every item the
    [forEach] leaves in the array. *)
Lemma forEach_items (f : Tile -> M unit) (P : Item -> Prop) (l : list Tile) :
  (forall a st, a ∈ l ->
     exists new, items (f a st).2 = items st ++ new /\ Forall P new) ->
  forall st, Forall P (items st) -> Forall P (items (forEach l f st).2).
Proof.
  induction l as [|a l IH]; intros Hf st Hst; simpl.
  - exact Hst.
  - unfold bind. destruct (f a st) as [u st'] eqn:E.
    apply IH.
    + intros b s Hb. apply Hf. now right.
    + destruct (Hf a st) as (new & Hnew & HP); [now left|].
      rewrite E in Hnew. simpl in Hnew. rewrite Hnew.
      apply Forall_app. split; assumption.
Qed.

Lemma elem_of_tileMeshes BIOME_COLORS (elevs : gmap string R) gridSize selectedTile
    tiles tile mesh :
  tile ∈ tiles ->
  renderTile BIOME_COLORS elevs gridSize selectedTile tile = Some mesh ->
  mesh ∈ tileMeshes BIOME_COLORS elevs gridSize selectedTile tiles.
Proof.
  intros Hin Hr. unfold tileMeshes. apply list_elem_of_omap. eauto.
Qed.


Lemma elevsHalf_forest : or0 (elevsHalf !! key forestTile) = 0.5.
Proof.
  replace (key forestTile) with "4-4" by reflexivity.
  unfold elevsHalf. rewrite lookup_singleton_eq. apply or0_Some.
Qed.


Lemma tileElevations_single noise2D tile gridSize :
  or0 (tileElevations noise2D [tile] gridSize !! key tile)
  = getIslandElevation (IZR (x tile)) (IZR (y tile)) gridSize noise2D.
Proof.
  unfold tileElevations. simpl. rewrite lookup_insert_eq. apply or0_Some.
Qed.

(** C9.  Grid size 8, a single mountain tile at [(4,4)] whose elevation is
    [0.5]: the group holds exactly one mesh, at [(0.5, 0.425, 0.5)] and of
    height [0.85], and exactly one decoration, a peak at height [0.85]. *)
Theorem scenario_single_mountain
    (BIOME_COLORS : gmap string string) (noise2D : R -> R -> R)
    (random : nat -> R) (selectedTile : option (Z * Z)) :
  getIslandElevation 4 4 8 noise2D = 0.5 ->
  let group := Island BIOME_COLORS noise2D random [mkTile 4 4 "mountain"] 8 selectedTile in
  (exists mesh,
     hexes group = [mesh]
     /\ mesh_position mesh = (0.5, 0.425, 0.5)
     /\ height mesh = 0.85)
  /\ (exists peak,
        decorations group = [peak]
        /\ type peak = mountain
        /\ position peak = (0.5, 0.85, 0.5)
        /\ vy (position peak) = 0.85).
Proof.
  intros He group.
  assert (E : or0 (tileElevations noise2D [mkTile 4 4 "mountain"] 8
                     !! key (mkTile 4 4 "mountain")) = 0.5).
  { rewrite tileElevations_single. exact He. }
  split.
  - eexists. unfold group, Island, tileMeshes. simpl.
    rewrite renderTile_visible by (rewrite E; lra). rewrite E. simpl.
    split; [reflexivity|]. unfold TileHex. cbn [mesh_position height x y].
    split; [apply vec3_eq; lra | lra].
  - eexists. unfold group, Island, props. simpl. unfold bind.
    rewrite tileProps_decorate by (rewrite E; lra). rewrite E.
    rewrite decorate_mountain by reflexivity. simpl.
    split; [reflexivity|]. split; [reflexivity|].
    cbn [position x y].
    split; [apply vec3_eq; lra | unfold vy; cbn [fst snd]; lra].
Qed.

Lemma scenario_single_mountain_witness :
  let group := Island ∅ (fun _ _ => -1) (fun _ => 0) [mkTile 4 4 "mountain"] 8 None in
  (exists mesh,
     hexes group = [mesh]
     /\ mesh_position mesh = (0.5, 0.425, 0.5)
     /\ height mesh = 0.85)
  /\ (exists peak,
        decorations group = [peak]
        /\ type peak = mountain
        /\ position peak = (0.5, 0.85, 0.5)
        /\ vy (position peak) = 0.85).
Proof.
  apply (scenario_single_mountain ∅ (fun _ _ => -1) (fun _ => 0) None).
  unfold getIslandElevation, islandMask. cbv zeta.
  replace (4 / 8 * 2 - 1) with 0 by lra.
  replace (0 * 0 + 0 * 0) with 0 by ring.
  rewrite sqrt_0, Rmax_right by lra. lra.
Defined.

(** C3, as the specification words it, fails: a tile whose biome is not in
    the table, here ["lava"], gets no colour at all. *)
Lemma unknown_biome_gets_no_fallback :
  sampleColors !! "lava" = None
  /\ ~ (exists fallback : string,
          material_color (TileHex sampleColors (mkTile 4 4 "lava") 0.5 8 false)
          = JsString fallback).
Proof.
  split; [reflexivity|]. intros [fallback H]. discriminate H.
Qed.

End IslandSpec.

(** ** Vegetation health *)

Module TerrainSpec.
Import Terrain Notions.

Lemma foldl_population (l : list Species) : forall acc : Z,
  foldl (fun sum s => (sum + population s)%Z) acc (plants l)
  = (acc + totalProducerPopulation l)%Z.
Proof.
  unfold plants. induction l as [|s l IH]; intros acc; simpl.
  - lia.
  - rewrite filter_cons. destruct (decide (diet s = "producer")); simpl.
    + rewrite IH. lia.
    + apply IH.
Qed.

Lemma totalPlants_spec (species : list Species) :
  totalPlants species = totalProducerPopulation species.
Proof. unfold totalPlants. now rewrite foldl_population. Qed.

Lemma totalProducerPopulation_none (species : list Species) :
  Forall (fun s => diet s <> "producer") species ->
  totalProducerPopulation species = 0%Z.
Proof.
  induction 1 as [|s l Hs _ IH]; simpl; [reflexivity|].
  destruct (decide _); [done | exact IH].
Qed.

Lemma totalProducerPopulation_nonneg (species : list Species) :
  Forall (fun s => (0 <= population s)%Z) species ->
  (0 <= totalProducerPopulation species)%Z.
Proof.
  induction 1 as [|s l Hs _ IH]; simpl; [lia|].
  destruct (decide _); lia.
Qed.

Lemma vegetationHealth_nonempty s rest season :
  uniform_vegetationHealth (s :: rest) season
  = Rmin 1 (IZR (totalProducerPopulation (s :: rest)) / 10000).
Proof.
  unfold uniform_vegetationHealth, ecosystemState.
  cbn [length Nat.eqb vegetationHealth]. rewrite totalPlants_spec.
  f_equal. lra.
Qed.

(** C1, as the code has it.  For a species list that is not empty the
    [vegetationHealth] uniform is [min(1, totalProducerPopulation / 10000)],
    which is [0] when the list has no producer; for the empty list the
    uniform is [1]. *)
Theorem vegetationHealth_spec (species : list Species) (season : string) :
  uniform_vegetationHealth species season
  = match species with
    | [] => 1
    | _ :: _ => Rmin 1 (IZR (totalProducerPopulation species) / 10000)
    end
  /\ (species <> [] -> Forall (fun s => diet s <> "producer") species ->
      uniform_vegetationHealth species season = 0).
Proof.
  split.
  - destruct species as [|s rest]; [|apply vegetationHealth_nonempty].
    unfold uniform_vegetationHealth, ecosystemState. simpl. lra.
  - intros Hne Hnone. destruct species as [|s rest]; [done|].
    rewrite vegetationHealth_nonempty, totalProducerPopulation_none by exact Hnone.
    rewrite Rmin_right; lra.
Qed.

Lemma vegetationHealth_spec_witness :
  uniform_vegetationHealth [mkSpecies "herbivore" 120] "summer" = 0.
Proof.
  refine (proj2 (vegetationHealth_spec [mkSpecies "herbivore" 120] "summer") _ _).
  - discriminate.
  - constructor; [|constructor]. simpl. discriminate.
Defined.

(** C1, as the specification words it, fails on the empty list: it has no
    producer, and its [vegetationHealth] is [1], not [0]. *)
Lemma vegetationHealth_empty_list :
  uniform_vegetationHealth [] "spring"
  <> Rmin 1 (IZR (totalProducerPopulation []) / 10000).
Proof.
  unfold uniform_vegetationHealth, ecosystemState. simpl.
  rewrite Rmin_right; lra.
Qed.

Lemma vegetationHealth_le_1 (species : list Species) (season : string) :
  uniform_vegetationHealth species season <= 1.
Proof.
  destruct species as [|s rest].
  - unfold uniform_vegetationHealth, ecosystemState. simpl. lra.
  - rewrite vegetationHealth_nonempty. apply Rmin_l.
Qed.

Lemma vegetationHealth_nonneg (species : list Species) (season : string) :
  Forall (fun s => (0 <= population s)%Z) species ->
  0 <= uniform_vegetationHealth species season.
Proof.
  intros Hpop. destruct species as [|s rest].
  - unfold uniform_vegetationHealth, ecosystemState. simpl. lra.
  - rewrite vegetationHealth_nonempty.
    apply totalProducerPopulation_nonneg, IZR_le in Hpop.
    apply Rmin_glb; [lra|]. apply Rmult_le_pos; [exact Hpop|].
    left. apply Rinv_0_lt_compat. lra.
Qed.

(** The blend of the fragment shader gives the colour of the map at full
    health and the shifted colour at none. *)
Lemma healthBlend_ends (baseColor : Vec3) :
  healthBlend baseColor 1 = baseColor
  /\ healthBlend baseColor 0
     = (vx baseColor * 1.2, vy baseColor * 0.7, vz baseColor * 0.5).
Proof.
  destruct baseColor as [[a b] c]. unfold healthBlend, mix, vx, vy, vz. simpl.
  split; apply IslandSpec.vec3_eq; ring.
Qed.

End TerrainSpec.

(** ** The ocean *)

Module WaterSpec.
Import Notions.

Lemma clamp01_id h : 0 <= h <= 1 -> clamp01 h = h.
Proof.
  intros [H0 H1]. unfold clamp01, clamp.
  rewrite Rmax_left by lra. now rewrite Rmin_left by lra.
Qed.

Lemma clamp01_above h : 1 <= h -> clamp01 h = 1.
Proof.
  intros H1. unfold clamp01, clamp.
  rewrite Rmax_left by lra. now rewrite Rmin_right by lra.
Qed.

Lemma between_lerp a b t : 0 <= t <= 1 -> between a b (a + (b - a) * t).
Proof.
  intros [H0 H1]. unfold between.
  destruct (Rle_dec a b) as [Hab|Hab].
  - rewrite Rmin_left, Rmax_right by lra. split; nra.
  - rewrite Rmin_right, Rmax_left by lra. split; nra.
Qed.

Lemma colorBetween_lerp a b t : 0 <= t <= 1 -> colorBetween a b (lerp a b t).
Proof.
  intros Ht. unfold colorBetween, lerp. simpl.
  repeat split; apply between_lerp; exact Ht.
Qed.

Lemma red_healthy : red (hexColor "#1E90FF") = 30 / 255.
Proof.
  unfold hexColor. cbn [red].
  replace (16 * hexDigit "1" + hexDigit "E")%Z with 30%Z by reflexivity.
  reflexivity.
Qed.

Lemma red_unhealthy : red (hexColor "#4A5D4A") = 74 / 255.
Proof.
  unfold hexColor. cbn [red].
  replace (16 * hexDigit "4" + hexDigit "A")%Z with 74%Z by reflexivity.
  reflexivity.
Qed.

(** C2, as the code has it.  The health scalar is used as it is supplied:
    the blend factor of the three water colours is [1 - ecosystemHealth] and
    the opacity is [0.9 + ecosystemHealth * 0.05].  For a scalar in [[0,1]]
    clamping would change nothing: the blend factor lies in [[0,1]], every
    channel lies between its healthy and its unhealthy value, and the
    opacity lies in [[0.9, 0.95]].  The vegetation health is at most [1],
    and at least [0] when no population is negative. *)
Theorem health_scalars_unclamped
    (parseColor : string -> Color) (ecosystemHealth : R)
    (species : list Terrain.Species) (season : string) :
  let c := Water.colors parseColor ecosystemHealth in
  Water.color c
  = lerp (parseColor "#1E90FF") (parseColor "#4A5D4A") (1 - ecosystemHealth)
  /\ Water.deepColor c
     = lerp (parseColor "#0066CC") (parseColor "#2F3D2F") (1 - ecosystemHealth)
  /\ Water.foamColor c
     = lerp (parseColor "#87CEEB") (parseColor "#6B7B6B") (1 - ecosystemHealth)
  /\ Water.opacity c = 0.9 + ecosystemHealth * 0.05
  /\ (0 <= ecosystemHealth <= 1 ->
      Water.colors parseColor (clamp01 ecosystemHealth) = c
      /\ 0 <= 1 - ecosystemHealth <= 1
      /\ colorBetween (parseColor "#1E90FF") (parseColor "#4A5D4A") (Water.color c)
      /\ colorBetween (parseColor "#0066CC") (parseColor "#2F3D2F") (Water.deepColor c)
      /\ colorBetween (parseColor "#87CEEB") (parseColor "#6B7B6B") (Water.foamColor c)
      /\ 0.9 <= Water.opacity c <= 0.95)
  /\ Terrain.uniform_vegetationHealth species season <= 1
  /\ (Forall (fun s => (0 <= Terrain.population s)%Z) species ->
      0 <= Terrain.uniform_vegetationHealth species season).
Proof.
  intros c.
  do 4 (split; [reflexivity|]).
  split; [|split].
  - intros Hh.
    assert (Ht : 0 <= 1 - ecosystemHealth <= 1) by lra.
    split; [now rewrite clamp01_id|].
    split; [exact Ht|].
    do 3 (split; [apply colorBetween_lerp; exact Ht|]).
    unfold c, Water.colors; cbn [Water.opacity]; lra.
  - apply TerrainSpec.vegetationHealth_le_1.
  - apply TerrainSpec.vegetationHealth_nonneg.
Qed.

Lemma health_scalars_unclamped_witness :
  Water.colors hexColor (clamp01 (1 / 2)) = Water.colors hexColor (1 / 2)
  /\ 0.9 <= Water.opacity (Water.colors hexColor (1 / 2)) <= 0.95.
Proof.
  destruct (health_scalars_unclamped hexColor (1 / 2) [] "spring")
    as (_ & _ & _ & _ & H & _).
  destruct H as (H1 & _ & _ & _ & _ & H2); [lra|].
  split; [exact H1 | exact H2].
Defined.

(** C2, as the specification words it, fails: a health of [2] is not
    clamped to [1].  The opacity is [1] instead of [0.95], and the red
    channel of the water colour leaves the range of colours. *)
Lemma ecosystemHealth_not_clamped :
  Water.colors hexColor 2 <> Water.colors hexColor (clamp01 2)
  /\ Water.opacity (Water.colors hexColor 2) = 1
  /\ Water.opacity (Water.colors hexColor (clamp01 2)) = 0.95
  /\ red (Water.color (Water.colors hexColor 2)) < 0.
Proof.
  assert (E : clamp01 2 = 1) by (apply clamp01_above; lra).
  assert (O2 : Water.opacity (Water.colors hexColor 2) = 1).
  { unfold Water.colors. cbn [Water.opacity]. lra. }
  assert (O1 : Water.opacity (Water.colors hexColor (clamp01 2)) = 0.95).
  { rewrite E. unfold Water.colors. cbn [Water.opacity]. lra. }
  split; [|split; [exact O2|split; [exact O1|]]].
  - intros H. apply (f_equal Water.opacity) in H. rewrite O2, O1 in H. lra.
  - unfold Water.colors. cbn [Water.color]. unfold lerp. cbn [red].
    rewrite red_healthy, red_unhealthy. lra.
Qed.

(** *** Waves *)

Lemma displacement_same (pos : Vec3) (uTime : R) :
  WaterDark.displacement pos uTime = Water.displacement pos uTime.
Proof. reflexivity. Qed.

Lemma displacement_bounds (pos : Vec3) (uTime : R) :
  -0.12 <= Water.displacement pos uTime <= 0.12.
Proof.
  unfold Water.displacement, Water.wave1, Water.wave2, Water.wave3.
  pose proof (SIN_bound (vx pos * 2.0 + uTime * 0.5)).
  pose proof (SIN_bound (vy pos * 3.0 + uTime * 0.7)).
  pose proof (SIN_bound ((vx pos + vy pos) * 1.5 + uTime * 0.3)).
  lra.
Qed.

Lemma displacement_crest (pos : Vec3) (uTime : R) :
  Water.displacement pos uTime = 0.12 ->
  sin (vx pos * 2.0 + uTime * 0.5) = 1
  /\ sin (vy pos * 3.0 + uTime * 0.7) = 1
  /\ sin ((vx pos + vy pos) * 1.5 + uTime * 0.3) = 1.
Proof.
  unfold Water.displacement, Water.wave1, Water.wave2, Water.wave3.
  pose proof (SIN_bound (vx pos * 2.0 + uTime * 0.5)).
  pose proof (SIN_bound (vy pos * 3.0 + uTime * 0.7)).
  pose proof (SIN_bound ((vx pos + vy pos) * 1.5 + uTime * 0.3)).
  intros E. repeat split; lra.
Qed.

Lemma displacement_origin (z : R) : Water.displacement (0, 0, z) 0 = 0.
Proof.
  unfold Water.displacement, Water.wave1, Water.wave2, Water.wave3, vx, vy.
  cbn [fst snd].
  replace (0 * 2.0 + 0 * 0.5) with 0 by lra.
  replace (0 * 3.0 + 0 * 0.7) with 0 by lra.
  replace ((0 + 0) * 1.5 + 0 * 0.3) with 0 by lra.
  rewrite sin_0. lra.
Qed.

(** The foam term is saturated only from the upper edge of its band on. *)
Lemma foam_saturated (v : R) : Water.foam v = 1 -> 0.12 <= v.
Proof.
  unfold Water.foam, smoothstep, clamp. cbv zeta.
  set (u := (v - 0.08) / (0.12 - 0.08)).
  intros E.
  assert (Hu : u = (v - 0.08) * 25) by (unfold u; lra).
  destruct (Rle_dec 1 u) as [H1|H1]; [lra|].
  exfalso. apply Rnot_le_lt in H1.
  assert (Hlo : 0 <= Rmax u 0) by apply Rmax_r.
  assert (Hhi : Rmax u 0 < 1) by (apply Rmax_lub_lt; lra).
  rewrite Rmin_left in E by lra.
  set (t := Rmax u 0) in *.
  assert (Hfac : (1 - t) * (1 - t) * (1 + 2 * t) = 0) by nra.
  assert (0 < (1 - t) * (1 - t) * (1 + 2 * t)).
  { apply Rmult_lt_0_compat; [apply Rmult_lt_0_compat|]; lra. }
  lra.
Qed.

(** C10.  In both variants of the water shader the sum of the three waves
    lies in [[-0.12, 0.12]]; it reaches [0.12], the upper edge of the foam
    band, where the foam term of a flat water plane saturates, only when the
    three sines are all [1]; and at [x = y = 0], [t = 0] it is [0]. *)
Theorem wave_displacement_range (x y z t : R) :
  -0.12 <= Water.displacement (x, y, z) t <= 0.12
  /\ -0.12 <= WaterDark.displacement (x, y, z) t <= 0.12
  /\ Water.displacement (x, y, z) t
     = sin (x * 2 + t * 0.5) * 0.05 + sin (y * 3 + t * 0.7) * 0.03
       + sin ((x + y) * 1.5 + t * 0.3) * 0.04
  /\ WaterDark.displacement (x, y, z) t
     = sin (x * 2 + t * 0.5) * 0.05 + sin (y * 3 + t * 0.7) * 0.03
       + sin ((x + y) * 1.5 + t * 0.3) * 0.04
  /\ (Water.displacement (x, y, z) t = 0.12
      \/ WaterDark.displacement (x, y, z) t = 0.12
      \/ Water.foam (Water.vElevation (x, y, 0) t) = 1
      \/ WaterDark.foam (WaterDark.vElevation (x, y, 0) t) = 1 ->
      sin (x * 2 + t * 0.5) = 1
      /\ sin (y * 3 + t * 0.7) = 1
      /\ sin ((x + y) * 1.5 + t * 0.3) = 1)
  /\ Water.displacement (0, 0, z) 0 = 0
  /\ WaterDark.displacement (0, 0, z) 0 = 0.
Proof.
  assert (Hargs : forall a : R, a * 2.0 = a * 2 /\ a * 3.0 = a * 3) by (intros; lra).
  assert (Hform : Water.displacement (x, y, z) t
     = sin (x * 2 + t * 0.5) * 0.05 + sin (y * 3 + t * 0.7) * 0.03
       + sin ((x + y) * 1.5 + t * 0.3) * 0.04).
  { unfold Water.displacement, Water.wave1, Water.wave2, Water.wave3, vx, vy.
    cbn [fst snd]. rewrite (proj1 (Hargs x)), (proj2 (Hargs y)). reflexivity. }
  assert (Hcrest : Water.displacement (x, y, z) t = 0.12 ->
      sin (x * 2 + t * 0.5) = 1 /\ sin (y * 3 + t * 0.7) = 1
      /\ sin ((x + y) * 1.5 + t * 0.3) = 1).
  { intros E. apply displacement_crest in E. unfold vx, vy in E. cbn [fst snd] in E.
    rewrite (proj1 (Hargs x)), (proj2 (Hargs y)) in E. exact E. }
  assert (Hfoam : Water.foam (Water.vElevation (x, y, 0) t) = 1 ->
                  Water.displacement (x, y, z) t = 0.12).
  { intros E. apply foam_saturated in E. unfold Water.vElevation in E.
    pose proof (displacement_bounds (x, y, 0) t) as Hb.
    change (Water.displacement (x, y, 0) t) with (Water.displacement (x, y, z) t) in *.
    cbn [vz snd] in E. lra. }
  split; [apply displacement_bounds|].
  split; [rewrite displacement_same; apply displacement_bounds|].
  split; [exact Hform|]. split; [rewrite displacement_same; exact Hform|].
  split.
  - intros [E|[E|[E|E]]].
    + exact (Hcrest E).
    + rewrite displacement_same in E. exact (Hcrest E).
    + exact (Hcrest (Hfoam E)).
    + exact (Hcrest (Hfoam E)).
  - split; [|rewrite displacement_same]; apply displacement_origin.
Qed.

End WaterSpec.

(** ** The keys of the elevation map *)

Module KeySpec.
Import Island Notions.

Lemma app_cons (c : ascii) (s t : string) : String c s +:+ t = String c (s +:+ t).
Proof. reflexivity. Qed.

Lemma app_empty_l (t : string) : "" +:+ t = t.
Proof. reflexivity. Qed.

Lemma app_empty_r (s : string) : s +:+ "" = s.
Proof.
  induction s as [|c s IH]; [reflexivity|]. now rewrite app_cons, IH.
Qed.

Lemma app_app (s1 s2 s3 : string) : (s1 +:+ s2) +:+ s3 = s1 +:+ (s2 +:+ s3).
Proof.
  induction s1 as [|c s1 IH]; [reflexivity|]. now rewrite !app_cons, IH.
Qed.

Lemma noDash_app (s1 s2 : string) : noDash s1 -> noDash s2 -> noDash (s1 +:+ s2).
Proof.
  induction s1 as [|c s1 IH]; [auto|].
  rewrite app_cons. simpl. intros [? ?] ?. auto.
Qed.

Lemma pretty_N_char_noDash (n : N) : pretty_N_char n <> "-"%char.
Proof. unfold pretty_N_char. repeat case_match; discriminate. Qed.

(** Two strings that agree and whose first dash comes after [p1] and
    after [p2] agree on both sides of that dash. *)
Lemma split_at_dash (p1 p2 r1 r2 : string) :
  noDash p1 -> noDash p2 ->
  p1 +:+ String "-" r1 = p2 +:+ String "-" r2 ->
  p1 = p2 /\ r1 = r2.
Proof.
  revert p2. induction p1 as [|c p1 IH]; intros [|c' p2];
    rewrite ?app_cons, ?app_empty_l; simpl.
  - intros _ _ [= ->]. auto.
  - intros _ [Hc _] [= <- _]. done.
  - intros [Hc _] _ [= -> _]. done.
  - intros [_ H1] [_ H2] [= -> E]. destruct (IH p2 H1 H2 E) as [-> ->]. auto.
Qed.

Lemma pretty_N_go_digits (n : N) : forall s,
  exists p, pretty_N_go n s = p +:+ s /\ noDash p /\ ((0 < n)%N -> p <> "").
Proof.
  induction (N.lt_wf_0 n) as [n _ IH]; intros s.
  destruct (decide (n = 0%N)) as [->|Hn].
  - exists "". rewrite pretty_N_go_0. split; [reflexivity|]. split; [exact I|]. lia.
  - rewrite pretty_N_go_step by lia.
    destruct (IH (n `div` 10)%N (N.div_lt n 10 ltac:(lia) ltac:(lia))
                 (String (pretty_N_char (n `mod` 10)) s)) as (p & E & Hp & _).
    exists (p +:+ String (pretty_N_char (n `mod` 10)) "").
    rewrite E, app_app, app_cons, app_empty_l. split; [reflexivity|]. split.
    + apply noDash_app; [exact Hp|]. simpl. split; [apply pretty_N_char_noDash | exact I].
    + intros _. destruct p; discriminate.
Qed.

Lemma pretty_N_digits (n : N) : noDash (pretty n) /\ pretty n <> "".
Proof.
  unfold pretty, pretty_N. destruct (decide (n = 0%N)) as [->|Hn].
  - split; [|discriminate]. simpl. split; [discriminate | exact I].
  - destruct (pretty_N_go_digits n "") as (p & E & Hp & Hne).
    rewrite E, app_empty_r. split; [exact Hp | apply Hne; lia].
Qed.

(** The decimal form of an integer: digits, after a dash when it is
    negative. *)
Lemma pretty_Z_shape (z : Z) :
  exists p, noDash p /\ p <> "" /\
    (pretty z = p \/ ((z < 0)%Z /\ pretty z = String "-" p)).
Proof.
  destruct z as [|q|q].
  - exists "0". split; [simpl; split; [discriminate | exact I]|].
    split; [discriminate | left; reflexivity].
  - destruct (pretty_N_digits (N.pos q)) as [Hp Hne].
    exists (pretty (N.pos q)). split; [exact Hp|]. split; [exact Hne | left; reflexivity].
  - destruct (pretty_N_digits (N.pos q)) as [Hp Hne].
    exists (pretty (N.pos q)). split; [exact Hp|]. split; [exact Hne|].
    right. split; [lia | reflexivity].
Qed.

(** Two tiles with the same key have the same coordinates. *)
Lemma key_inj (t1 t2 : Tile) : key t1 = key t2 -> x t1 = x t2 /\ y t1 = y t2.
Proof.
  unfold key. intros E.
  assert (Hsplit : pretty (x t1) = pretty (x t2) /\ pretty (y t1) = pretty (y t2)).
  { destruct (pretty_Z_shape (x t1)) as (p1 & Hp1 & Hne1 & [E1|[_ E1]]);
      destruct (pretty_Z_shape (x t2)) as (p2 & Hp2 & Hne2 & [E2|[_ E2]]);
      rewrite E1, E2 in E |- *;
      change ("-" +:+ pretty (y t1)) with (String "-" (pretty (y t1))) in E;
      change ("-" +:+ pretty (y t2)) with (String "-" (pretty (y t2))) in E;
      rewrite ?app_cons in E.
    - destruct (split_at_dash _ _ _ _ Hp1 Hp2 E) as [-> ?]. auto.
    - destruct p1 as [|c p1]; [done|]. rewrite app_cons in E. simpl in Hp1.
      injection E as -> _. destruct Hp1 as [Hc _]. done.
    - destruct p2 as [|c p2]; [done|]. rewrite app_cons in E. simpl in Hp2.
      injection E as <- _. destruct Hp2 as [Hc _]. done.
    - injection E as E.
      destruct (split_at_dash _ _ _ _ Hp1 Hp2 E) as [-> ?]. auto. }
  destruct Hsplit as [Hx Hy].
  split; eapply (inj pretty); eassumption.
Qed.

(** The memo holds, for every tile of the list, the elevation of its own
    coordinates. *)
Lemma tileElevations_lookup noise2D tiles gridSize tile :
  tile ∈ tiles ->
  tileElevations noise2D tiles gridSize !! key tile
  = Some (getIslandElevation (IZR (x tile)) (IZR (y tile)) gridSize noise2D).
Proof.
  unfold tileElevations.
  induction tiles as [|a l IH] using rev_ind; intros Hin.
  - inversion Hin.
  - rewrite foldl_snoc.
    destruct (decide (key a = key tile)) as [Hk|Hk].
    + rewrite Hk, lookup_insert_eq.
      destruct (key_inj _ _ Hk) as [-> ->]. reflexivity.
    + rewrite lookup_insert_ne by exact Hk. apply IH.
      apply elem_of_app in Hin as [Hin|Hin]; [exact Hin|].
      apply list_elem_of_singleton in Hin. congruence.
Qed.

(** In the group [Island] returns, a tile of the list has a mesh exactly
    when the elevation of its coordinates is at least [0.08]. *)
Lemma Island_tile_mesh BIOME_COLORS noise2D tiles gridSize selectedTile tile :
  tile ∈ tiles ->
  let elevation := getIslandElevation (IZR (x tile)) (IZR (y tile)) gridSize noise2D in
  renderTile BIOME_COLORS (tileElevations noise2D tiles gridSize) gridSize
    selectedTile tile
  = if Rltb elevation 0.08 then None
    else Some (TileHex BIOME_COLORS tile elevation gridSize
                 (isSelected selectedTile tile)).
Proof.
  intros Hin elevation. unfold renderTile. cbv zeta.
  rewrite (tileElevations_lookup noise2D tiles gridSize tile Hin), or0_Some.
  reflexivity.
Qed.

End KeySpec.

(** * Further properties *)

(** ** Notions used in the further statements *)

Module MoreNotions.
Import Island Decor.

(** The item [it] lies on the tile [tile] of a grid of size [gridSize] as a
    decoration of the biome of the tile does: a tree of a forest tile at
    most 0.2 from the centre of the tile on either axis, a rock of a
    grassland tile at most 0.15, a peak of a mountain tile at the centre,
    each with a scale in the range of its kind. *)
Definition placedOn (gridSize : R) (tile : Tile) (it : Item) : Prop :=
  let cx := IZR (x tile) - (gridSize / 2 - 0.5) in
  let cz := IZR (y tile) - (gridSize / 2 - 0.5) in
  match type it with
  | tree =>
      biome tile = "forest"
      /\ cx - 0.2 <= vx (position it) < cx + 0.2
      /\ cz - 0.2 <= vz (position it) < cz + 0.2
      /\ 0.7 <= scale it < 1.1
  | rock =>
      biome tile = "grassland"
      /\ cx - 0.15 <= vx (position it) < cx + 0.15
      /\ cz - 0.15 <= vz (position it) < cz + 0.15
      /\ 0.5 <= scale it < 1
  | mountain =>
      biome tile = "mountain"
      /\ vx (position it) = cx
      /\ vz (position it) = cz
      /\ 0.8 <= scale it < 1.2
  end.

(** Half the vertical extent of a geometry about the position of its mesh:
    a cylinder and a cone are centred on it and span their height; for a
    dodecahedron this is the radius of the sphere through its vertices. *)
Definition halfHeight (g : Geometry) : R :=
  match g with
  | cylinderGeometry _ _ height _ => height / 2
  | coneGeometry _ height _ => height / 2
  | dodecahedronGeometry radius _ => radius
  end.

(** The lowest and the highest level of a part of a decoration in the
    scene: the frame of the decoration is scaled, then moved to its
    position. *)
Definition bottom (o : Object3D) (p : Part) : R :=
  vy (obj_position o) + obj_scale o * (vy (part_position p) - halfHeight (geometry p)).

Definition top (o : Object3D) (p : Part) : R :=
  vy (obj_position o) + obj_scale o * (vy (part_position p) + halfHeight (geometry p)).

(** A decoration sits on top of a tile mesh when none of its parts reaches
    below the top face of the mesh. *)
Definition sitsOnTop (mesh : Mesh) (o : Object3D) : Prop :=
  Forall (fun p => topFace mesh <= bottom o p) (parts o).

(** The items the callback of the [props] memo appends to the array for
    [tile], when it runs from the state [st]. *)
Definition emitted (random : nat -> R) (gridSize : R) (elevs : gmap string R)
    (tile : Tile) (st : St) : list Item :=
  drop (length (items st)) (items (tileProps random gridSize elevs tile st).2).

(** What each tile of the list emits, in the order of the [forEach], each
    callback running from the state the one before it has left. *)
Fixpoint emissions (random : nat -> R) (gridSize : R) (elevs : gmap string R)
    (tiles : list Tile) (st : St) : list (list Item) :=
  match tiles with
  | [] => []
  | tile :: rest =>
      emitted random gridSize elevs tile st
      :: emissions random gridSize elevs rest
           (tileProps random gridSize elevs tile st).2
  end.

(** The tests [0.08 <= elevation] and [0.15 <= elevation] are decided by
    comparing the two numbers. *)
#[export] Instance Rle_decision (a b : R) : Decision (a <= b) := Rle_dec a b.

End MoreNotions.

(** ** The island *)

Module IslandMore.
Import Island Notions Decor MoreNotions.

Lemma elevation_le_mask (x y gridSize : R) (noise2D : R -> R -> R) :
  noise2D (x * 0.3) (y * 0.3) <= 1 ->
  getIslandElevation x y gridSize noise2D
  <= islandMask (distFromCenter x y gridSize) * islandMask (distFromCenter x y gridSize).
Proof.
  intros Hn. rewrite ElevationSpec.getIslandElevation_unfold.
  pose proof (ElevationSpec.islandMask_nonneg (distFromCenter x y gridSize)) as H0.
  set (m := islandMask _) in *. set (n := noise2D _ _) in *.
  assert (0 <= m * m) by nra.
  assert (0.5 + (n + 1) / 2 * 0.5 <= 1) by lra.
  nra.
Qed.

(** A tile of elevation at least [0.08] lies at a distance below [0.6]. *)
Lemma visible_distance (x y gridSize : R) (noise2D : R -> R -> R) :
  noise2D (x * 0.3) (y * 0.3) <= 1 ->
  0.08 <= getIslandElevation x y gridSize noise2D ->
  distFromCenter x y gridSize < 0.6.
Proof.
  intros Hn He. pose proof (elevation_le_mask x y gridSize noise2D Hn) as Hm.
  pose proof (ElevationSpec.distFromCenter_nonneg x y gridSize) as Hd.
  set (d := distFromCenter x y gridSize) in *.
  destruct (Rlt_dec d 0.6) as [Hlt|Hge]; [exact Hlt|]. exfalso.
  apply Rnot_lt_le in Hge.
  destruct (Rle_dec (5 / 6) d) as [Hflat|Hpos].
  - rewrite (ElevationSpec.islandMask_flat d Hflat) in Hm. lra.
  - assert (Hp : 0 < islandMask d) by (apply ElevationSpec.islandMask_pos_iff; lra).
    pose proof (ElevationSpec.islandMask_pos d Hp) as Em.
    rewrite Em in Hm. nra.
Qed.

Lemma distFromCenter_sqr (x y gridSize : R) :
  gridSize <> 0 ->
  (x - gridSize / 2) ^ 2 + (y - gridSize / 2) ^ 2
  = (gridSize / 2) ^ 2 * (distFromCenter x y gridSize * distFromCenter x y gridSize).
Proof.
  intros Hg. unfold distFromCenter. cbv zeta.
  set (nx := x / gridSize * 2 - 1). set (ny := y / gridSize * 2 - 1).
  rewrite sqrt_sqrt by nra. unfold nx, ny. field. exact Hg.
Qed.

Lemma distFromCenter_border (x y gridSize : R) :
  0 < gridSize -> x = 0 \/ y = 0 -> 1 <= distFromCenter x y gridSize.
Proof.
  intros Hg Hxy. unfold distFromCenter. cbv zeta.
  rewrite <- sqrt_1 at 1. apply sqrt_le_1_alt.
  destruct Hxy as [-> | ->].
  - replace (0 / gridSize * 2 - 1) with (-1) by (field; lra).
    set (t := y / gridSize * 2 - 1). nra.
  - replace (0 / gridSize * 2 - 1) with (-1) by (field; lra).
    set (t := x / gridSize * 2 - 1). nra.
Qed.

Lemma elevation_border (x y gridSize : R) (noise2D : R -> R -> R) :
  0 < gridSize -> x = 0 \/ y = 0 ->
  getIslandElevation x y gridSize noise2D = 0.
Proof.
  intros Hg Hxy. rewrite ElevationSpec.getIslandElevation_unfold.
  rewrite ElevationSpec.islandMask_flat; [ring|].
  pose proof (distFromCenter_border x y gridSize Hg Hxy). lra.
Qed.

(** X1.  With a noise sample in [[-1,1]] the elevation lies in [[0,1]], and
    between half the square of the island mask and that square; so there is
    land, an elevation above [0], exactly below the distance [5/6] from the
    centre, whatever the noise. *)
Theorem elevation_land_inside_silhouette
    (x y gridSize : R) (noise2D : R -> R -> R) :
  -1 <= noise2D (x * 0.3) (y * 0.3) <= 1 ->
  let e := getIslandElevation x y gridSize noise2D in
  let m := islandMask (distFromCenter x y gridSize) in
  0 <= e <= 1
  /\ m * m / 2 <= e <= m * m
  /\ (0 < e <-> distFromCenter x y gridSize < 5 / 6).
Proof.
  intros Hn e m.
  pose proof (ElevationSpec.islandMask_nonneg (distFromCenter x y gridSize)) as H0.
  pose proof (ElevationSpec.islandMask_le_1 _
                (ElevationSpec.distFromCenter_nonneg x y gridSize)) as H1.
  pose proof (ElevationSpec.islandMask_pos_iff (distFromCenter x y gridSize)) as Hiff.
  fold m in H0, H1, Hiff.
  assert (E : e = m * m * (0.5 + (noise2D (x * 0.3) (y * 0.3) + 1) / 2 * 0.5)).
  { unfold e. now rewrite ElevationSpec.getIslandElevation_unfold. }
  set (n := noise2D _ _) in *.
  assert (Hf : 0.5 <= 0.5 + (n + 1) / 2 * 0.5 <= 1) by lra.
  set (f := 0.5 + (n + 1) / 2 * 0.5) in *.
  assert (Hmm : 0 <= m * m <= 1) by nra.
  split; [rewrite E; split; nra|]. split; [rewrite E; split; nra|].
  rewrite <- Hiff, E. split; intros H.
  - destruct (Rlt_dec 0 m) as [?|Hz]; [assumption|].
    assert (Em : m = 0) by lra. rewrite Em in H. lra.
  - assert (0 < m * m) by nra. nra.
Qed.

Lemma elevation_land_inside_silhouette_witness :
  0 <= getIslandElevation 4 4 8 (fun _ _ => 0) <= 1.
Proof.
  refine (proj1 (elevation_land_inside_silhouette 4 4 8 (fun _ _ => 0) _)).
  lra.
Defined.

(** A mesh of the group comes from a tile of the list whose own elevation
    is at least [0.08]. *)
Lemma hexes_inv BIOME_COLORS noise2D random tiles gridSize selectedTile mesh :
  mesh ∈ hexes (Island BIOME_COLORS noise2D random tiles gridSize selectedTile) ->
  exists tile,
    tile ∈ tiles
    /\ 0.08 <= getIslandElevation (IZR (x tile)) (IZR (y tile)) gridSize noise2D
    /\ mesh = TileHex BIOME_COLORS tile
                (getIslandElevation (IZR (x tile)) (IZR (y tile)) gridSize noise2D)
                gridSize (isSelected selectedTile tile).
Proof.
  unfold Island, tileMeshes. cbn [hexes]. intros Hin.
  apply list_elem_of_omap in Hin as (tile & Htile & Hr).
  exists tile. split; [exact Htile|].
  rewrite (KeySpec.Island_tile_mesh BIOME_COLORS noise2D tiles gridSize selectedTile
             tile Htile) in Hr.
  cbv zeta in Hr.
  destruct (Rltb _ 0.08) eqn:Hlt; [discriminate|].
  apply Rltb_false in Hlt. split; [exact Hlt|]. now injection Hr.
Qed.

(** X2.  With noise samples of at most [1], every tile mesh of the group
    lies, in the ground plane, at a distance below [0.3 * gridSize] from the
    point [(0.5, 0.5)]; and a tile of the first row or column of the grid
    ([x = 0] or [y = 0]) has elevation [0] whatever the noise, so it gets
    no mesh and no decoration. *)
Theorem rendered_tiles_in_disc
    (BIOME_COLORS : gmap string string) (noise2D : R -> R -> R)
    (random : nat -> R) (tiles : list Tile) (gridSize : R)
    (selectedTile : option (Z * Z)) :
  0 < gridSize ->
  (forall a b, noise2D a b <= 1) ->
  Forall (fun mesh =>
            (vx (mesh_position mesh) - 0.5) ^ 2 + (vz (mesh_position mesh) - 0.5) ^ 2
            < (0.3 * gridSize) ^ 2)
         (hexes (Island BIOME_COLORS noise2D random tiles gridSize selectedTile))
  /\ (forall tile st,
        tile ∈ tiles -> (x tile = 0 \/ y tile = 0)%Z ->
        renderTile BIOME_COLORS (tileElevations noise2D tiles gridSize) gridSize
          selectedTile tile = None
        /\ tileProps random gridSize (tileElevations noise2D tiles gridSize) tile st
           = (tt, st)).
Proof.
  intros Hg Hn. split.
  - apply Forall_forall. intros mesh Hin.
    apply hexes_inv in Hin as (tile & _ & He & ->).
    unfold TileHex. cbn [mesh_position]. unfold vx, vz. cbn [fst snd].
    pose proof (visible_distance _ _ gridSize noise2D (Hn _ _) He) as Hd.
    pose proof (ElevationSpec.distFromCenter_nonneg (IZR (x tile)) (IZR (y tile)) gridSize)
      as Hd0.
    pose proof (distFromCenter_sqr (IZR (x tile)) (IZR (y tile)) gridSize) as Hs.
    set (d := distFromCenter _ _ _) in *.
    replace (IZR (x tile) - (gridSize / 2 - 0.5) - 0.5)
      with (IZR (x tile) - gridSize / 2) by lra.
    replace (IZR (y tile) - (gridSize / 2 - 0.5) - 0.5)
      with (IZR (y tile) - gridSize / 2) by lra.
    rewrite Hs by lra.
    assert (d * d < 0.36) by nra.
    assert (0 < (gridSize / 2) ^ 2) by nra.
    nra.
  - intros tile st Hin Hxy.
    assert (E : or0 (tileElevations noise2D tiles gridSize !! key tile) = 0).
    { rewrite (KeySpec.tileElevations_lookup noise2D tiles gridSize tile Hin), or0_Some.
      apply elevation_border; [exact Hg|].
      destruct Hxy as [-> | ->]; auto. }
    split.
    + apply IslandSpec.renderTile_culled. rewrite E. lra.
    + apply IslandSpec.tileProps_skip. rewrite E. lra.
Qed.

Lemma rendered_tiles_in_disc_witness :
  renderTile sampleColors (tileElevations (fun _ _ => 1) [mkTile 0 3 "forest"] 8) 8
    None (mkTile 0 3 "forest") = None.
Proof.
  refine (proj1 (proj2 (rendered_tiles_in_disc sampleColors (fun _ _ => 1) (fun _ => 0)
                          [mkTile 0 3 "forest"] 8 None _ _)
                   (mkTile 0 3 "forest") (mkSt [] 0) _ _)).
  - lra.
  - intros _ _. lra.
  - apply list_elem_of_singleton. reflexivity.
  - left. reflexivity.
Defined.

Lemma tileElevations_absent noise2D tiles gridSize tile :
  (forall t, t ∈ tiles -> x t <> x tile \/ y t <> y tile) ->
  tileElevations noise2D tiles gridSize !! key tile = None.
Proof.
  unfold tileElevations.
  induction tiles as [|a l IH] using rev_ind; intros Hall.
  - apply lookup_empty.
  - rewrite foldl_snoc, lookup_insert_ne.
    + apply IH. intros t Ht. apply Hall, elem_of_app. now left.
    + intros Hk. apply KeySpec.key_inj in Hk as [Hx Hy].
      destruct (Hall a) as [H|H]; [|done..].
      apply elem_of_app. right. now apply list_elem_of_singleton.
Qed.

(** X3.  The elevation memo, keyed by the string made of the two
    coordinates, gives back for every tile of the list the elevation of the
    coordinates of that tile, and nothing for coordinates no tile of the
    list has: two tiles have the same key exactly when they have the same
    coordinates. *)
Theorem elevation_memo_lookup
    (noise2D : R -> R -> R) (tiles : list Tile) (gridSize : R) (tile : Tile) :
  (tile ∈ tiles ->
   tileElevations noise2D tiles gridSize !! key tile
   = Some (getIslandElevation (IZR (x tile)) (IZR (y tile)) gridSize noise2D))
  /\ ((forall t, t ∈ tiles -> x t <> x tile \/ y t <> y tile) ->
      tileElevations noise2D tiles gridSize !! key tile = None)
  /\ (forall t, key t = key tile <-> x t = x tile /\ y t = y tile).
Proof.
  split; [apply KeySpec.tileElevations_lookup|].
  split; [apply tileElevations_absent|].
  intros t. split; [apply KeySpec.key_inj|].
  intros [Hx Hy]. unfold key. now rewrite Hx, Hy.
Qed.

Lemma omap_length_le {A B : Type} (f : A -> option B) (l : list A) :
  (length (omap f l) <= length l)%nat.
Proof.
  unfold omap. induction l as [|a l IH]; simpl; [lia|].
  destruct (f a); simpl; lia.
Qed.

(** X4.  With noise samples in [[-1,1]], every tile mesh of the group is a
    six-sided prism of radii [0.52] and [0.55] whose height lies in
    [[0.22, 1.6]] and whose base lies in the plane [y = 0]; and the group
    holds at most one mesh per tile. *)
Theorem tile_mesh_geometry
    (BIOME_COLORS : gmap string string) (noise2D : R -> R -> R)
    (random : nat -> R) (tiles : list Tile) (gridSize : R)
    (selectedTile : option (Z * Z)) :
  (forall a b, -1 <= noise2D a b <= 1) ->
  let group := Island BIOME_COLORS noise2D random tiles gridSize selectedTile in
  (length (hexes group) <= length tiles)%nat
  /\ Forall (fun mesh =>
               0.22 <= height mesh <= 1.6
               /\ vy (mesh_position mesh) - height mesh / 2 = 0
               /\ radiusTop mesh = 0.52
               /\ radiusBottom mesh = 0.55
               /\ radialSegments mesh = 6%Z)
            (hexes group).
Proof.
  intros Hn group. split.
  - unfold group, Island, tileMeshes. cbn [hexes]. apply omap_length_le.
  - apply Forall_forall. intros mesh Hin.
    apply hexes_inv in Hin as (tile & _ & He & ->).
    pose proof (ElevationSpec.getIslandElevation_range (IZR (x tile)) (IZR (y tile))
                  gridSize noise2D (Hn _ _)) as [_ H1].
    unfold TileHex. cbn [height mesh_position radiusTop radiusBottom radialSegments].
    unfold vy. cbn [fst snd].
    split; [lra|]. split; [lra|]. auto.
Qed.

Lemma tile_mesh_geometry_witness :
  (length (hexes (Island sampleColors (fun _ _ => 0%R) (fun _ => 0%R)
                    [mkTile 4 4 "forest"] 8%R None)) <= 1)%nat.
Proof.
  refine (proj1 (tile_mesh_geometry sampleColors (fun _ _ => 0) (fun _ => 0)
                   [mkTile 4 4 "forest"] 8 None _)).
  intros _ _. lra.
Defined.

Section Placement.

Variable random : nat -> R.
Variable gridSize : R.
Hypothesis random_range : forall n, 0 <= random n < 1.

(** The [for] loop of a forest tile, with a property of each tree it
    pushes. *)
Lemma for_pushTree_Forall baseX baseHeight baseZ (P : Item -> Prop) :
  (forall i,
     P {| type := tree;
          position := (baseX + (random i - 0.5) * 0.4, baseHeight,
                       baseZ + (random (S i) - 0.5) * 0.4);
          scale := 0.7 + random (S (S i)) * 0.4 |}) ->
  forall n st,
  exists new,
    items (for_ n (pushTree random baseX baseHeight baseZ) st).2 = items st ++ new
    /\ length new = n
    /\ Forall P new.
Proof.
  intros HP. induction n as [|n IH]; intros st.
  - exists []. simpl. now rewrite app_nil_r.
  - simpl. unfold bind at 1.
    unfold pushTree at 1. unfold bind, Math_random, push. simpl.
    match goal with |- context [for_ n _ ?s] => destruct (IH s) as (new & E & Hlen & Hall) end.
    eexists (_ :: new). rewrite E. simpl. split; [|split].
    + rewrite <- app_assoc. reflexivity.
    + now rewrite Hlen.
    + constructor; [apply HP | exact Hall].
Qed.

(** What the callback of the [props] memo pushes for one tile: at most two
    items, each placed on the tile as its biome asks and at its render
    height, and none for a tile of another biome. *)
Lemma tileProps_run (elevs : gmap string R) tile st :
  exists new,
    items (tileProps random gridSize elevs tile st).2 = items st ++ new
    /\ (length new <= 2)%nat
    /\ Forall (fun it => placedOn gridSize tile it
                         /\ vy (position it) = 0.1 + or0 (elevs !! key tile) * 1.5) new
    /\ (biome tile <> "forest" -> biome tile <> "mountain" ->
        biome tile <> "grassland" -> new = []).
Proof.
  set (e := or0 (elevs !! key tile)).
  destruct (Rlt_dec e 0.15) as [Hlt|Hge].
  { exists []. rewrite IslandSpec.tileProps_skip by exact Hlt. simpl.
    rewrite app_nil_r. repeat split; auto. }
  apply Rnot_lt_le in Hge. rewrite IslandSpec.tileProps_decorate by exact Hge. fold e.
  destruct (decide (biome tile = "forest")) as [Hf|Hf].
  { rewrite IslandSpec.decorate_forest by exact Hf.
    assert (HP : forall i,
              (fun it => placedOn gridSize tile it /\ vy (position it) = 0.1 + e * 1.5)
                {| type := tree;
                   position :=
                     (IZR (x tile) - (gridSize / 2 - 0.5) + (random i - 0.5) * 0.4,
                      0.1 + e * 1.5,
                      IZR (y tile) - (gridSize / 2 - 0.5) + (random (S i) - 0.5) * 0.4);
                   scale := 0.7 + random (S (S i)) * 0.4 |}).
    { intros i. unfold placedOn, vx, vy, vz. cbn [type position scale fst snd].
      pose proof (random_range i). pose proof (random_range (S i)).
      pose proof (random_range (S (S i))).
      repeat split; try lra; exact Hf. }
    match goal with |- context [for_ ?n ?b ?s] =>
      destruct (for_pushTree_Forall _ _ _ _ HP n s) as (new & E & Hlen & Hall)
    end.
    exists new. rewrite E. simpl. split; [done|]. split.
    { rewrite Hlen. apply IslandSpec.treeCount_range, random_range. }
    split; [exact Hall | done]. }
  destruct (decide (biome tile = "mountain")) as [Hm|Hm].
  { rewrite IslandSpec.decorate_mountain by exact Hm. eexists. simpl. split; [done|].
    split; [simpl; lia|]. split; [|done].
    constructor; [|constructor].
    unfold placedOn, vx, vy, vz. cbn [type position scale fst snd].
    pose proof (random_range (drawn st)). repeat split; try lra; exact Hm. }
  destruct (decide (biome tile = "grassland")) as [Hg|Hg].
  { destruct (Rlt_dec 0.7 (random (drawn st))) as [Hr|Hr].
    - rewrite IslandSpec.decorate_grassland_rock by assumption. eexists. simpl.
      split; [done|]. split; [simpl; lia|]. split; [|done].
      constructor; [|constructor].
      unfold placedOn, vx, vy, vz. cbn [type position scale fst snd].
      pose proof (random_range (S (drawn st))).
      pose proof (random_range (S (S (drawn st)))).
      pose proof (random_range (S (S (S (drawn st))))).
      repeat split; try lra; exact Hg.
    - apply Rnot_lt_le in Hr. rewrite IslandSpec.decorate_grassland_bare by assumption.
      exists []. simpl. rewrite app_nil_r. repeat split; auto. }
  rewrite IslandSpec.decorate_other by assumption. exists [].
  rewrite app_nil_r. repeat split; auto.
Qed.

End Placement.

(** The number of items a [forEach] leaves grows by at most [k] per
    element when no callback pushes more than [k]. *)
Lemma forEach_length (f : Tile -> M unit) (k : nat) (l : list Tile) :
  (forall a st, a ∈ l ->
     exists new, items (f a st).2 = items st ++ new /\ (length new <= k)%nat) ->
  forall st,
    (length (items (forEach l f st).2) <= length (items st) + k * length l)%nat.
Proof.
  induction l as [|a l IH]; intros Hf st; simpl.
  - lia.
  - unfold bind. destruct (f a st) as [u st'] eqn:E.
    destruct (Hf a st) as (new & Hnew & Hlen); [now left|].
    rewrite E in Hnew. simpl in Hnew.
    etrans; [apply IH; intros b s Hb; apply Hf; now right|].
    rewrite Hnew, length_app. lia.
Qed.

(** X5.  With draws of [Math.random()] in [[0,1)], every item of the [props]
    memo lies on a tile of the list as the biome of that tile asks: a tree
    on a forest tile, less than 0.2 from the centre of the tile on either
    axis and of scale in [[0.7, 1.1)]; a rock on a grassland tile, less than
    0.15 from the centre and of scale in [[0.5, 1)]; a peak on a mountain
    tile, at the centre and of scale in [[0.8, 1.2)]. *)
Theorem decorations_placed_on_tiles
    (random : nat -> R) (tiles : list Tile) (gridSize : R) (elevs : gmap string R) :
  (forall n, 0 <= random n < 1) ->
  Forall (fun item => exists tile, tile ∈ tiles /\ placedOn gridSize tile item)
         (props random tiles gridSize elevs).
Proof.
  intros Hrand. unfold props. apply IslandSpec.forEach_items; [|constructor].
  intros tile st Hin.
  destruct (tileProps_run random gridSize Hrand elevs tile st) as (new & E & _ & Hall & _).
  exists new. split; [exact E|].
  eapply Forall_impl; [exact Hall|]. intros it [Hp _]. eauto.
Qed.

Lemma decorations_placed_on_tiles_witness :
  Forall (fun item => exists tile, tile ∈ [forestTile] /\ placedOn 8 tile item)
         (props (fun _ => 1 / 2) [forestTile] 8 elevsHalf).
Proof.
  apply (decorations_placed_on_tiles (fun _ => 1 / 2) [forestTile] 8 elevsHalf).
  intros _. lra.
Defined.

(** X6.  With draws of [Math.random()] in [[0,1)], the [props] memo holds at
    most two items per tile of the list; and whatever the draws, it is
    empty when no tile is a forest, a mountain or a grassland, in
    particular for the empty list. *)
Theorem decorations_count
    (random : nat -> R) (tiles : list Tile) (gridSize : R) (elevs : gmap string R) :
  (forall n, 0 <= random n < 1) ->
  (length (props random tiles gridSize elevs) <= 2 * length tiles)%nat
  /\ (forall random',
        Forall (fun tile => biome tile <> "forest" /\ biome tile <> "mountain"
                            /\ biome tile <> "grassland") tiles ->
        props random' tiles gridSize elevs = []).
Proof.
  intros Hrand. split.
  - unfold props.
    etrans; [apply (forEach_length _ 2)|simpl; lia].
    intros tile st _.
    destruct (tileProps_run random gridSize Hrand elevs tile st) as (new & E & Hlen & _).
    eauto.
  - intros random' Hall. unfold props.
    assert (Hstep : forall tile st,
              biome tile <> "forest" /\ biome tile <> "mountain"
              /\ biome tile <> "grassland" ->
              tileProps random' gridSize elevs tile st = (tt, st)).
    { intros tile st (H1 & H2 & H3). unfold tileProps. cbv zeta.
      destruct (Rltb _ 0.15); [reflexivity|].
      now apply IslandSpec.decorate_other. }
    assert (Hrun : forall st,
              forEach tiles (tileProps random' gridSize elevs) st = (tt, st)).
    { induction Hall as [|tile l Ht _ IH]; intros st; simpl; [reflexivity|].
      unfold bind. rewrite (Hstep tile st Ht). apply IH. }
    now rewrite Hrun.
Qed.

Lemma decorations_count_witness :
  (length (props (fun _ => (1 / 2)%R) [forestTile] 8%R elevsHalf) <= 2 * 1)%nat.
Proof.
  refine (proj1 (decorations_count (fun _ => 1 / 2) [forestTile] 8 elevsHalf _)).
  intros _. lra.
Defined.

Lemma isSelected_spec (selectedTile : option (Z * Z)) (tile : Tile) :
  isSelected selectedTile tile = true <-> selectedTile = Some (x tile, y tile).
Proof.
  unfold isSelected. destruct selectedTile as [[sx sy]|]; [|split; discriminate].
  rewrite andb_true_iff, !bool_decide_eq_true. split.
  - intros [-> ->]. reflexivity.
  - intros [= -> ->]. auto.
Qed.

(** X7.  A tile mesh carries the highlight, a white material and cyan
    edges, exactly when the selected coordinates are those of its tile;
    otherwise it has the colour of its biome and white edges.  The selection
    neither hides nor moves a tile: under any other selection the tile has
    a mesh at the same position and of the same height. *)
Theorem selection_highlight
    (BIOME_COLORS : gmap string string) (elevs : gmap string R) (gridSize : R)
    (selectedTile : option (Z * Z)) (tile : Tile) (mesh : Mesh) :
  renderTile BIOME_COLORS elevs gridSize selectedTile tile = Some mesh ->
  (selectedTile = Some (x tile, y tile) ->
     material_color mesh = JsString "#ffffff" /\ edges_color mesh = "#00ffff")
  /\ (selectedTile <> Some (x tile, y tile) ->
      material_color mesh = getProperty BIOME_COLORS (biome tile)
      /\ edges_color mesh = "#ffffff")
  /\ (edges_color mesh = "#00ffff" <-> selectedTile = Some (x tile, y tile))
  /\ (forall selectedTile',
        exists mesh',
          renderTile BIOME_COLORS elevs gridSize selectedTile' tile = Some mesh'
          /\ mesh_position mesh' = mesh_position mesh
          /\ height mesh' = height mesh).
Proof.
  unfold renderTile. cbv zeta.
  destruct (Rltb _ 0.08); [discriminate|]. intros [= <-].
  unfold TileHex. cbn [material_color edges_color mesh_position height].
  pose proof (isSelected_spec selectedTile tile) as Hsel.
  destruct (isSelected selectedTile tile).
  - assert (selectedTile = Some (x tile, y tile)) by now apply Hsel.
    split; [auto|]. split; [done|]. split; [tauto|]. eauto.
  - assert (selectedTile <> Some (x tile, y tile)).
    { intros E. apply Hsel in E. discriminate. }
    split; [done|]. split; [auto|]. split; [|eauto].
    split; [discriminate | done].
Qed.

Lemma selection_highlight_witness :
  exists mesh,
    renderTile sampleColors elevsHalf 8 (Some (4, 4)%Z) forestTile = Some mesh
    /\ material_color mesh = JsString "#ffffff" /\ edges_color mesh = "#00ffff".
Proof.
  assert (E : renderTile sampleColors elevsHalf 8 (Some (4, 4)%Z) forestTile
              = Some (TileHex sampleColors forestTile
                        (or0 (elevsHalf !! key forestTile)) 8
                        (isSelected (Some (4, 4)%Z) forestTile))).
  { apply IslandSpec.renderTile_visible. rewrite IslandSpec.elevsHalf_forest. lra. }
  eexists. split; [exact E|].
  exact (proj1 (selection_highlight sampleColors elevsHalf 8 (Some (4, 4)%Z) forestTile
                  _ E) eq_refl).
Defined.

(** X8.  With draws of [Math.random()] in [[0,1)], and the top face of a
    tile at its render height: every tree of the [props] memo stands on the
    top face of a tile of the list, its trunk starting there and no part
    reaching below; every rock is centred on the top face of its tile; and
    the cone of every peak reaches at least 0.32 below the top face of its
    tile. *)
Theorem decoration_extents
    (random : nat -> R) (tiles : list Tile) (gridSize : R) (elevs : gmap string R) :
  (forall n, 0 <= random n < 1) ->
  Forall (fun item =>
            exists tile,
              tile ∈ tiles
              /\ forall r : R,
                   let face := 0.1 + or0 (elevs !! key tile) * 1.5 in
                   let o := renderProp r item in
                   match type item with
                   | tree =>
                       Forall (fun p => face <= bottom o p) (parts o)
                       /\ Exists (fun p => bottom o p = face) (parts o)
                   | rock =>
                       Forall (fun p =>
                                 vy (obj_position o)
                                 + obj_scale o * vy (part_position p) = face)
                              (parts o)
                   | mountain =>
                       Exists (fun p => bottom o p <= face - 0.32) (parts o)
                   end)
         (props random tiles gridSize elevs).
Proof.
  intros Hrand. unfold props. apply IslandSpec.forEach_items; [|constructor].
  intros tile st Hin.
  destruct (tileProps_run random gridSize Hrand elevs tile st) as (new & E & _ & Hall & _).
  exists new. split; [exact E|].
  eapply Forall_impl; [exact Hall|]. intros [ty pos sc] [Hp Hy].
  exists tile. split; [exact Hin|]. intros r. cbv zeta.
  unfold placedOn in Hp. cbn [type position scale] in Hp, Hy |- *.
  unfold renderProp. cbn [type position scale].
  destruct ty; destruct Hp as (_ & _ & _ & Hs).
  - unfold Tree. cbn [parts]. split.
    + repeat constructor; unfold bottom, halfHeight, vy in *;
        cbn [obj_position obj_scale part_position geometry fst snd] in *; nra.
    + constructor. unfold bottom, halfHeight, vy in *.
      cbn [obj_position obj_scale part_position geometry fst snd] in *. nra.
  - unfold Rock. cbn [parts]. repeat constructor.
    unfold vy in *. cbn [obj_position obj_scale part_position fst snd] in *. nra.
  - unfold MountainPeak. cbn [parts]. constructor.
    unfold bottom, halfHeight, vy in *.
    cbn [obj_position obj_scale part_position geometry fst snd] in *. nra.
Qed.

Lemma decoration_extents_witness :
  Forall (fun item =>
            exists tile,
              tile ∈ [forestTile]
              /\ forall r : R,
                   let face := 0.1 + or0 (elevsHalf !! key tile) * 1.5 in
                   let o := renderProp r item in
                   match type item with
                   | tree =>
                       Forall (fun p => face <= bottom o p) (parts o)
                       /\ Exists (fun p => bottom o p = face) (parts o)
                   | rock =>
                       Forall (fun p =>
                                 vy (obj_position o)
                                 + obj_scale o * vy (part_position p) = face)
                              (parts o)
                   | mountain =>
                       Exists (fun p => bottom o p <= face - 0.32) (parts o)
                   end)
         (props (fun _ => 1 / 2) [forestTile] 8 elevsHalf).
Proof.
  apply (decoration_extents (fun _ => 1 / 2) [forestTile] 8 elevsHalf).
  intros _. lra.
Defined.

End IslandMore.

(** ** The group [Island] returns *)

Module GroupSpec.
Import Island Decor Notions MoreNotions.

Lemma omap_filter {A B : Type} (f : A -> option B) (g : A -> B) (P : A -> Prop)
    `{!forall a, Decision (P a)} (l : list A) :
  (forall a, a ∈ l -> f a = if decide (P a) then Some (g a) else None) ->
  omap f l = g <$> filter P l.
Proof.
  induction l as [|a l IH]; intros Hf; [reflexivity|].
  rewrite filter_cons. cbn [omap list_omap].
  rewrite (Hf a) by now left.
  rewrite IH by (intros b Hb; apply Hf; now right).
  destruct (decide (P a)); reflexivity.
Qed.

Lemma forEach_filter (f h : Tile -> M unit) (P : Tile -> Prop)
    `{!forall a, Decision (P a)} (l : list Tile) :
  (forall a st, a ∈ l -> f a st = if decide (P a) then h a st else (tt, st)) ->
  forall st, forEach l f st = forEach (filter P l) h st.
Proof.
  induction l as [|a l IH]; intros Hf st; [reflexivity|].
  rewrite filter_cons. simpl. unfold bind at 1.
  rewrite (Hf a st) by now left.
  assert (IH' := IH (fun b s Hb => Hf b s (list_elem_of_further _ _ _ Hb))).
  destruct (decide (P a)).
  - simpl. unfold bind. destruct (h a st) as [u st']. apply IH'.
  - apply IH'.
Qed.

(** In the [props] memo of [Island], the callback runs the placement by
    biome for a tile of the list exactly when the elevation of its
    coordinates is at least [0.15]. *)
Lemma Island_tile_props random noise2D tiles gridSize tile st :
  tile ∈ tiles ->
  let elevation := getIslandElevation (IZR (x tile)) (IZR (y tile)) gridSize noise2D in
  tileProps random gridSize (tileElevations noise2D tiles gridSize) tile st
  = if decide (0.15 <= elevation) then decorate random gridSize tile elevation st
    else (tt, st).
Proof.
  intros Hin elevation. unfold tileProps. cbv zeta.
  rewrite (KeySpec.tileElevations_lookup noise2D tiles gridSize tile Hin), or0_Some.
  fold elevation. destruct (decide (0.15 <= elevation)) as [H|H].
  - apply Rltb_false in H. now rewrite H.
  - apply Rnot_le_lt, Rltb_true in H. now rewrite H.
Qed.

(** The meshes of the group are those of the tiles whose elevation is at
    least [0.08], in the order of the list. *)
Lemma hexes_filter BIOME_COLORS noise2D random tiles gridSize selectedTile :
  hexes (Island BIOME_COLORS noise2D random tiles gridSize selectedTile)
  = (fun tile =>
       TileHex BIOME_COLORS tile
         (getIslandElevation (IZR (x tile)) (IZR (y tile)) gridSize noise2D)
         gridSize (isSelected selectedTile tile))
    <$> filter (fun tile =>
                  0.08 <= getIslandElevation (IZR (x tile)) (IZR (y tile))
                            gridSize noise2D)
               tiles.
Proof.
  unfold Island, tileMeshes. cbn [hexes]. apply omap_filter.
  intros tile Hin.
  rewrite (KeySpec.Island_tile_mesh BIOME_COLORS noise2D tiles gridSize selectedTile
             tile Hin).
  cbv zeta. destruct (decide _) as [H|H].
  - apply Rltb_false in H. now rewrite H.
  - apply Rnot_le_lt, Rltb_true in H. now rewrite H.
Qed.

(** A tile of the list whose elevation is at least [0.08] has its mesh in
    the group. *)
Lemma hex_in_group BIOME_COLORS noise2D random tiles gridSize selectedTile tile :
  tile ∈ tiles ->
  0.08 <= getIslandElevation (IZR (x tile)) (IZR (y tile)) gridSize noise2D ->
  TileHex BIOME_COLORS tile
    (getIslandElevation (IZR (x tile)) (IZR (y tile)) gridSize noise2D)
    gridSize (isSelected selectedTile tile)
  ∈ hexes (Island BIOME_COLORS noise2D random tiles gridSize selectedTile).
Proof.
  intros Hin He. rewrite hexes_filter.
  apply list_elem_of_fmap. exists tile. split; [reflexivity|].
  apply list_elem_of_filter. auto.
Qed.

(** The elevation of the tile [(4,2)] of a grid of size 8, under a noise
    that is [0] everywhere. *)
Lemma elevation_4_2 : getIslandElevation 4 2 8 (fun _ _ => 0) = 0.12.
Proof.
  unfold getIslandElevation, islandMask. cbv zeta.
  replace (4 / 8 * 2 - 1) with 0 by lra.
  replace (2 / 8 * 2 - 1) with (- 0.5) by lra.
  replace (0 * 0 + - 0.5 * - 0.5) with (0.5 * 0.5) by lra.
  rewrite sqrt_square by lra.
  rewrite Rmax_right by lra. lra.
Qed.

(** C4.  In the group [Island] returns, a mesh is emitted for a tile of the
    list exactly when the elevation of the tile is at least [0.08]: the
    meshes of the group are those of the tiles that pass this test, in the
    order of the list.  A tile is decorated exactly when its elevation is at
    least [0.15]: the decorations of the group are what the placement by
    biome pushes for the tiles that pass this test, the callback leaving the
    array and the random draws untouched for the others.  So every eligible
    tile is visible and has its mesh in the group; the reverse fails: in a
    grid of size 8 under a noise that is [0] everywhere, the mountain tile
    [(4,2)] has elevation [0.12], so the group holds its mesh and no
    decoration. *)
Theorem island_visibility_and_eligibility
    (BIOME_COLORS : gmap string string) (noise2D : R -> R -> R)
    (random : nat -> R) (tiles : list Tile) (gridSize : R)
    (selectedTile : option (Z * Z)) :
  let elevation := fun tile =>
    getIslandElevation (IZR (x tile)) (IZR (y tile)) gridSize noise2D in
  let hex := fun tile =>
    TileHex BIOME_COLORS tile (elevation tile) gridSize (isSelected selectedTile tile) in
  let visible := filter (fun tile => 0.08 <= elevation tile) tiles in
  let eligible := filter (fun tile => 0.15 <= elevation tile) tiles in
  let group := Island BIOME_COLORS noise2D random tiles gridSize selectedTile in
  hexes group = hex <$> visible
  /\ (forall tile, tile ∈ tiles -> (hex tile ∈ hexes group <-> 0.08 <= elevation tile))
  /\ decorations group
     = items (forEach eligible
                (fun tile => decorate random gridSize tile (elevation tile))
                {| items := []; drawn := 0 |}).2
  /\ (forall tile st,
        tile ∈ tiles ->
        (0.15 <= elevation tile ->
         tileProps random gridSize (tileElevations noise2D tiles gridSize) tile st
         = decorate random gridSize tile (elevation tile) st)
        /\ (elevation tile < 0.15 ->
            tileProps random gridSize (tileElevations noise2D tiles gridSize) tile st
            = (tt, st)))
  /\ (forall tile, tile ∈ eligible -> tile ∈ visible /\ hex tile ∈ hexes group)
  /\ (let tile := mkTile 4 2 "mountain" in
      let group := Island BIOME_COLORS (fun _ _ => 0) random [tile] 8 selectedTile in
      getIslandElevation (IZR (x tile)) (IZR (y tile)) 8 (fun _ _ => 0) = 0.12
      /\ (exists mesh, hexes group = [mesh])
      /\ decorations group = []).
Proof.
  intros elevation hex visible eligible group.
  assert (Hhex : hexes group = hex <$> visible) by apply hexes_filter.
  split; [exact Hhex|]. split; [|split; [|split; [|split]]].
  - intros tile Hin. split.
    + rewrite Hhex. intros H.
      apply list_elem_of_fmap in H as (tile' & E & H').
      apply list_elem_of_filter in H' as [He' _].
      apply (f_equal height) in E. unfold hex, TileHex in E. cbn [height] in E.
      lra.
    + intros He. apply hex_in_group; assumption.
  - unfold group, Island, props. cbn [decorations]. f_equal. f_equal.
    apply (forEach_filter _ (fun tile => decorate random gridSize tile (elevation tile))
             (fun tile => 0.15 <= elevation tile)).
    intros tile st Hin. apply Island_tile_props. exact Hin.
  - intros tile st Hin.
    rewrite (Island_tile_props random noise2D tiles gridSize tile st Hin). cbv zeta.
    fold (elevation tile). split; intros He; destruct (decide _); (reflexivity || lra).
  - intros tile Hin. apply list_elem_of_filter in Hin as [He Hin].
    split; [apply list_elem_of_filter; split; [lra | exact Hin]|].
    apply hex_in_group; [exact Hin | fold (elevation tile); lra].
  - cbv zeta. cbn [x y].
    assert (E : or0 (tileElevations (fun _ _ => 0) [mkTile 4 2 "mountain"] 8
                       !! key (mkTile 4 2 "mountain")) = 0.12).
    { rewrite IslandSpec.tileElevations_single. exact elevation_4_2. }
    split; [exact elevation_4_2|]. split.
    + eexists. unfold Island, tileMeshes. cbn [hexes]. simpl.
      rewrite IslandSpec.renderTile_visible by (rewrite E; lra). reflexivity.
    + unfold Island, props. cbn [decorations]. simpl. unfold bind.
      rewrite IslandSpec.tileProps_skip by (rewrite E; lra). reflexivity.
Qed.

(** C3, as the code has it.  A tile of the list whose biome is not in
    [BIOME_COLORS] does not stop the rendering: when its elevation is at
    least [0.08] the group holds its mesh, as it holds the mesh of every
    other such tile of the list.  But no colour is resolved for it.  When
    the tile is selected its material has the highlight colour; otherwise
    the material is handed what [BIOME_COLORS[tile.biome]] gives, which is
    never a colour string: it is [undefined], or, for a biome that is the
    name of a property of [Object.prototype], that inherited property.  No
    fallback colour is substituted.  A biome the table has resolves to its
    entry. *)
Theorem unknown_biome_rendering
    (BIOME_COLORS : gmap string string) (noise2D : R -> R -> R)
    (random : nat -> R) (tiles : list Tile) (gridSize : R)
    (selectedTile : option (Z * Z)) (tile : Tile) :
  tile ∈ tiles ->
  BIOME_COLORS !! biome tile = None ->
  let elevation := fun tile =>
    getIslandElevation (IZR (x tile)) (IZR (y tile)) gridSize noise2D in
  let hex := fun tile =>
    TileHex BIOME_COLORS tile (elevation tile) gridSize (isSelected selectedTile tile) in
  let group := Island BIOME_COLORS noise2D random tiles gridSize selectedTile in
  (forall tile', tile' ∈ tiles -> 0.08 <= elevation tile' -> hex tile' ∈ hexes group)
  /\ (0.08 <= elevation tile -> hex tile ∈ hexes group)
  /\ (isSelected selectedTile tile = true ->
      material_color (hex tile) = JsString "#ffffff")
  /\ (isSelected selectedTile tile = false ->
      (forall color, material_color (hex tile) <> JsString color)
      /\ (inherited (biome tile) = false -> material_color (hex tile) = JsUndefined)
      /\ (inherited (biome tile) = true ->
          material_color (hex tile) = JsInherited (biome tile)))
  /\ (forall tile' color,
        BIOME_COLORS !! biome tile' = Some color ->
        isSelected selectedTile tile' = false ->
        material_color (hex tile') = JsString color).
Proof.
  intros Hin Hnone elevation hex group.
  split; [|split; [|split; [|split]]].
  - intros tile' Hin' He. apply hex_in_group; assumption.
  - intros He. apply hex_in_group; assumption.
  - intros Hsel. unfold hex, TileHex. cbn [material_color]. now rewrite Hsel.
  - intros Hsel. unfold hex, TileHex. cbn [material_color]. rewrite Hsel.
    unfold getProperty. rewrite Hnone.
    destruct (inherited (biome tile)); repeat split; congruence.
  - intros tile' color Hc Hsel. unfold hex, TileHex. cbn [material_color].
    rewrite Hsel. unfold getProperty. now rewrite Hc.
Qed.

Lemma unknown_biome_rendering_witness :
  let lava := mkTile 4 4 "lava" in
  let odd := mkTile 4 4 "toString" in
  let elevation := getIslandElevation 4 4 8 (fun _ _ => -1) in
  material_color (TileHex sampleColors lava elevation 8 false) = JsUndefined
  /\ material_color (TileHex sampleColors odd elevation 8 false)
     = JsInherited "toString".
Proof.
  split.
  - refine (proj1 (proj2 (proj1 (proj2 (proj2 (proj2
              (unknown_biome_rendering sampleColors (fun _ _ => -1) (fun _ => 0)
                 [mkTile 4 4 "lava"] 8 None (mkTile 4 4 "lava") _ _)))) _)) _).
    + apply list_elem_of_singleton. reflexivity.
    + reflexivity.
    + reflexivity.
    + reflexivity.
  - refine (proj2 (proj2 (proj1 (proj2 (proj2 (proj2
              (unknown_biome_rendering sampleColors (fun _ _ => -1) (fun _ => 0)
                 [mkTile 4 4 "toString"] 8 None (mkTile 4 4 "toString") _ _)))) _)) _).
    + apply list_elem_of_singleton. reflexivity.
    + reflexivity.
    + reflexivity.
    + reflexivity.
Defined.

(** The array the [forEach] of the [props] memo leaves is what it found
    followed by what each tile has emitted, in the order of the list. *)
Lemma forEach_emissions random gridSize (elevs : gmap string R) (tiles : list Tile) :
  forall st,
    items (forEach tiles (tileProps random gridSize elevs) st).2
    = items st ++ concat (emissions random gridSize elevs tiles st).
Proof.
  induction tiles as [|tile rest IH]; intros st; simpl.
  - now rewrite app_nil_r.
  - unfold bind. unfold emitted.
    destruct (IslandSpec.tileProps_emits random gridSize elevs tile st) as (new & E & _).
    destruct (tileProps random gridSize elevs tile st) as [u st'] eqn:Et.
    cbn [snd] in *. rewrite IH, E, drop_app_length, app_assoc. reflexivity.
Qed.

(** What a tile emits lies on it as its biome asks, at its render height,
    and the tile has passed the elevation test of the memo. *)
Lemma emitted_placed random gridSize (elevs : gmap string R) tile st :
  (forall n, 0 <= random n < 1) ->
  Forall (fun item =>
            placedOn gridSize tile item
            /\ 0.15 <= or0 (elevs !! key tile)
            /\ vy (position item) = 0.1 + or0 (elevs !! key tile) * 1.5)
         (emitted random gridSize elevs tile st).
Proof.
  intros Hrand. unfold emitted.
  destruct (IslandMore.tileProps_run random gridSize Hrand elevs tile st)
    as (new & E & _ & Hplaced & _).
  destruct (IslandSpec.tileProps_emits random gridSize elevs tile st)
    as (new' & E' & Hge).
  assert (new' = new) as -> by (rewrite E in E'; now apply app_inv_head in E').
  rewrite E, drop_app_length.
  apply Forall_forall. intros item Hitem.
  rewrite Forall_forall in Hplaced, Hge.
  destruct (Hplaced item Hitem) as [Hp Hy]. destruct (Hge item Hitem) as [He _].
  auto.
Qed.

(** The extent of a decoration about a face at the height of its anchor. *)
Lemma placed_extents gridSize tile item mesh :
  placedOn gridSize tile item ->
  topFace mesh = vy (position item) ->
  forall r : R,
    let o := renderProp r item in
    match type item with
    | tree => sitsOnTop mesh o /\ Exists (fun p => bottom o p = topFace mesh) (parts o)
    | rock =>
        Forall (fun p =>
                  vy (obj_position o) + obj_scale o * vy (part_position p) = topFace mesh
                  /\ bottom o p < topFace mesh < top o p)
               (parts o)
    | mountain => Exists (fun p => bottom o p <= topFace mesh - 0.32) (parts o)
    end.
Proof.
  intros Hp Hy r. cbv zeta. destruct item as [ty pos sc].
  unfold placedOn in Hp. cbn [type position scale] in Hp, Hy |- *.
  unfold renderProp. cbn [type position scale]. rewrite Hy.
  destruct ty; destruct Hp as (_ & _ & _ & Hs).
  - unfold sitsOnTop, Tree. cbn [parts]. split.
    + repeat constructor; unfold bottom, halfHeight, vy in *;
        cbn [obj_position obj_scale part_position geometry fst snd] in *; nra.
    + constructor. unfold bottom, halfHeight, vy in *.
      cbn [obj_position obj_scale part_position geometry fst snd] in *. nra.
  - unfold Rock. cbn [parts]. repeat constructor;
      unfold bottom, top, halfHeight, vy in *;
      cbn [obj_position obj_scale part_position geometry fst snd] in *; nra.
  - unfold MountainPeak. cbn [parts]. constructor.
    unfold bottom, halfHeight, vy in *.
    cbn [obj_position obj_scale part_position geometry fst snd] in *. nra.
Qed.

(** C8, as the code has it.  With draws of [Math.random()] in [[0,1)]: the
    decorations of the group are what the tiles of the list emit, tile after
    tile, and every decoration a tile emits has the render height
    [0.1 + elevation * 1.5] of that tile as its height.  That tile has its
    mesh in the group, a prism centred at half its height whose top face is
    at this height.  The decoration is anchored on that face: a tree stands
    on it, its trunk starting there and no part reaching below; a rock is
    centred on it, half below and half above; and the cone of a peak reaches
    at least 0.32 below it. *)
Theorem decorations_anchored_on_emitting_tile
    (BIOME_COLORS : gmap string string) (noise2D : R -> R -> R)
    (random : nat -> R) (tiles : list Tile) (gridSize : R)
    (selectedTile : option (Z * Z)) :
  (forall n, 0 <= random n < 1) ->
  let group := Island BIOME_COLORS noise2D random tiles gridSize selectedTile in
  let chunks :=
    emissions random gridSize (tileElevations noise2D tiles gridSize) tiles
      {| items := []; drawn := 0 |} in
  decorations group = concat chunks
  /\ Forall2
       (fun tile chunk =>
          let elevation :=
            getIslandElevation (IZR (x tile)) (IZR (y tile)) gridSize noise2D in
          let mesh :=
            TileHex BIOME_COLORS tile elevation gridSize (isSelected selectedTile tile) in
          Forall (fun item =>
                    vy (position item) = 0.1 + elevation * 1.5
                    /\ mesh ∈ hexes group
                    /\ height mesh = 0.1 + elevation * 1.5
                    /\ vy (mesh_position mesh) = height mesh / 2
                    /\ topFace mesh = vy (position item)
                    /\ forall r : R,
                         let o := renderProp r item in
                         match type item with
                         | tree =>
                             sitsOnTop mesh o
                             /\ Exists (fun p => bottom o p = topFace mesh) (parts o)
                         | rock =>
                             Forall (fun p =>
                                       vy (obj_position o)
                                       + obj_scale o * vy (part_position p)
                                       = topFace mesh
                                       /\ bottom o p < topFace mesh < top o p)
                                    (parts o)
                         | mountain =>
                             Exists (fun p => bottom o p <= topFace mesh - 0.32)
                                    (parts o)
                         end)
                 chunk)
       tiles chunks.
Proof.
  intros Hrand group chunks. split.
  - unfold group, Island, props. cbn [decorations].
    now rewrite forEach_emissions.
  - unfold chunks.
    set (elevs := tileElevations noise2D tiles gridSize).
    assert (Hall : forall l st,
              (forall t, t ∈ l -> t ∈ tiles) ->
              Forall2
                (fun tile chunk =>
                   let elevation :=
                     getIslandElevation (IZR (x tile)) (IZR (y tile)) gridSize noise2D in
                   let mesh :=
                     TileHex BIOME_COLORS tile elevation gridSize
                       (isSelected selectedTile tile) in
                   Forall (fun item =>
                             vy (position item) = 0.1 + elevation * 1.5
                             /\ mesh ∈ hexes group
                             /\ height mesh = 0.1 + elevation * 1.5
                             /\ vy (mesh_position mesh) = height mesh / 2
                             /\ topFace mesh = vy (position item)
                             /\ forall r : R,
                                  let o := renderProp r item in
                                  match type item with
                                  | tree =>
                                      sitsOnTop mesh o
                                      /\ Exists (fun p => bottom o p = topFace mesh)
                                                (parts o)
                                  | rock =>
                                      Forall (fun p =>
                                                vy (obj_position o)
                                                + obj_scale o * vy (part_position p)
                                                = topFace mesh
                                                /\ bottom o p < topFace mesh < top o p)
                                             (parts o)
                                  | mountain =>
                                      Exists (fun p => bottom o p <= topFace mesh - 0.32)
                                             (parts o)
                                  end)
                          chunk)
                l (emissions random gridSize elevs l st)).
    { induction l as [|tile rest IH]; intros st Hsub; simpl; constructor.
      - cbv zeta.
        assert (Hin : tile ∈ tiles) by (apply Hsub; now left).
        pose proof (emitted_placed random gridSize elevs tile st Hrand) as Hem.
        eapply Forall_impl; [exact Hem|]. intros item (Hp & He & Hy).
        unfold elevs in He, Hy.
        rewrite (KeySpec.tileElevations_lookup noise2D tiles gridSize tile Hin),
          or0_Some in He, Hy.
        assert (Hface : topFace
                          (TileHex BIOME_COLORS tile
                             (getIslandElevation (IZR (x tile)) (IZR (y tile))
                                gridSize noise2D)
                             gridSize (isSelected selectedTile tile))
                        = vy (position item)).
        { rewrite IslandSpec.topFace_TileHex. symmetry. exact Hy. }
        split; [exact Hy|]. split.
        { apply (hex_in_group BIOME_COLORS noise2D random tiles gridSize selectedTile
                   tile Hin). lra. }
        split; [reflexivity|]. split; [reflexivity|]. split; [exact Hface|].
        intros r. exact (placed_extents gridSize tile item _ Hp Hface r).
      - apply IH. intros t Ht. apply Hsub. now right. }
    apply Hall. auto.
Qed.

Lemma decorations_anchored_on_emitting_tile_witness :
  let tiles := [mkTile 4 4 "mountain"] in
  decorations (Island sampleColors (fun _ _ => -1) (fun _ => 0) tiles 8 None)
  = concat (emissions (fun _ => 0) 8 (tileElevations (fun _ _ => -1) tiles 8) tiles
              {| items := []; drawn := 0 |}).
Proof.
  refine (proj1 (decorations_anchored_on_emitting_tile sampleColors (fun _ _ => -1)
                   (fun _ => 0) [mkTile 4 4 "mountain"] 8 None _)).
  intros _. lra.
Defined.

(** C8, as the specification words it, fails: a peak does not sit on top of
    its tile.  In a grid of size 8 with the single mountain tile [(4,4)] at
    elevation [0.5], the top face of the prism is at [0.85] and the peak,
    of scale [0.8] when the draw is [0], has its cone from [0.53] up: the
    lower part of the cone lies inside the prism, which spans [0] to
    [0.85] about the same axis. *)
Lemma peak_embedded_in_tile :
  let group :=
    Island sampleColors (fun _ _ => -1) (fun _ => 0) [mkTile 4 4 "mountain"] 8 None in
  exists mesh peak cone,
    hexes group = [mesh]
    /\ decorations group = [peak]
    /\ cone ∈ parts (renderProp 0 peak)
    /\ vx (obj_position (renderProp 0 peak)) = vx (mesh_position mesh)
    /\ vz (obj_position (renderProp 0 peak)) = vz (mesh_position mesh)
    /\ vy (mesh_position mesh) - height mesh / 2 = 0
    /\ topFace mesh = 0.85
    /\ bottom (renderProp 0 peak) cone = 0.53
    /\ ~ sitsOnTop mesh (renderProp 0 peak).
Proof.
  cbv zeta.
  assert (He : getIslandElevation 4 4 8 (fun _ _ => -1) = 0.5).
  { unfold getIslandElevation, islandMask. cbv zeta.
    replace (4 / 8 * 2 - 1) with 0 by lra.
    replace (0 * 0 + 0 * 0) with 0 by ring.
    rewrite sqrt_0, Rmax_right by lra. lra. }
  assert (E : or0 (tileElevations (fun _ _ => -1) [mkTile 4 4 "mountain"] 8
                     !! key (mkTile 4 4 "mountain")) = 0.5).
  { rewrite IslandSpec.tileElevations_single. exact He. }
  eexists _, _, _. split; [|split; [|split]].
  - unfold Island, tileMeshes. cbn [hexes]. simpl.
    rewrite IslandSpec.renderTile_visible by (rewrite E; lra). rewrite E. reflexivity.
  - unfold Island, props. cbn [decorations]. simpl. unfold bind.
    rewrite IslandSpec.tileProps_decorate by (rewrite E; lra). rewrite E.
    rewrite IslandSpec.decorate_mountain by reflexivity. reflexivity.
  - unfold renderProp, MountainPeak. cbn [type parts]. left.
  - unfold renderProp, MountainPeak, TileHex, topFace, sitsOnTop, bottom, halfHeight,
      vx, vy, vz.
    cbn [type parts obj_position obj_scale part_position geometry position scale
         mesh_position height x y fst snd items drawn].
    repeat split; try lra.
    intros H. apply Forall_cons in H as [H _].
    unfold topFace, vy in H.
    cbn [mesh_position height part_position geometry fst snd] in H. lra.
Qed.

End GroupSpec.

(** ** The terrain *)

Module TerrainMore.
Import Terrain Notions.

Lemma tintOf_range (season : string) :
  0.8 <= vx (tintOf season) <= 1.15
  /\ 0.8 <= vy (tintOf season) <= 1.15
  /\ 0.8 <= vz (tintOf season) <= 1.15.
Proof.
  unfold tintOf. repeat destruct (decide _); unfold vx, vy, vz; cbn [fst snd]; lra.
Qed.

Lemma tintOf_other (season : string) :
  season <> "winter" -> season <> "spring" -> season <> "summer" -> season <> "fall" ->
  tintOf season = (1, 1, 1).
Proof.
  intros H1 H2 H3 H4. unfold tintOf.
  repeat (destruct (decide _); [done|]).
  apply IslandSpec.vec3_eq; lra.
Qed.

(** X9.  The season tint of the shader material is the tint of the season
    only for a species list that is not empty: for the empty list it is
    [(1, 1, 1)] whatever the season.  A season other than winter, spring,
    summer and fall has the tint [(1, 1, 1)], and every channel of every
    tint lies in [[0.8, 1.15]]. *)
Theorem seasonTint_by_season (species : list Species) (season : string) :
  let tint := TerrainShader.seasonTint (TerrainShader.material species season) in
  (species = [] -> tint = (1, 1, 1))
  /\ (species <> [] -> tint = tintOf season)
  /\ (season <> "winter" -> season <> "spring" -> season <> "summer" ->
      season <> "fall" -> tint = (1, 1, 1))
  /\ (0.8 <= vx tint <= 1.15 /\ 0.8 <= vy tint <= 1.15 /\ 0.8 <= vz tint <= 1.15).
Proof.
  cbv zeta. unfold TerrainShader.material. cbn [TerrainShader.seasonTint].
  unfold ecosystemState.
  destruct species as [|s rest]; cbn [length Nat.eqb seasonTint].
  - split; [intros _; apply IslandSpec.vec3_eq; lra|].
    split; [done|].
    split; [intros; apply IslandSpec.vec3_eq; lra|].
    unfold vx, vy, vz; cbn [fst snd]; lra.
  - split; [done|]. split; [reflexivity|].
    split; [apply tintOf_other | apply tintOf_range].
Qed.

(** X10.  With the uniforms of the material, the fragment shader discards a
    fragment exactly when its height sample lies below [0.15], which for a
    vertex is the sample the vertex shader moved it by along its normal;
    the colour of a fragment it keeps is the health blend of the colour
    map, times the season tint, times a shading factor of at least
    [0.2325]. *)
Theorem terrain_fragment_shading
    (species : list Species) (season : string) (baseColor position normal : Vec3)
    (sample vDisplacement : R) (vNormal : Vec3) :
  let u := TerrainShader.material species season in
  let blend := healthBlend baseColor (TerrainShader.vegetationHealth u) in
  let tint := TerrainShader.seasonTint u in
  (TerrainShader.fragment u baseColor vDisplacement vNormal = None
   <-> vDisplacement < 0.15)
  /\ TerrainShader.vertex u position normal sample
     = ((vx position + vx normal * sample, vy position + vy normal * sample,
         vz position + vz normal * sample), sample)
  /\ (forall c,
        TerrainShader.fragment u baseColor vDisplacement vNormal = Some c ->
        exists k,
          0.2325 <= k
          /\ c = (vx blend * vx tint * k, vy blend * vy tint * k, vz blend * vz tint * k)).
Proof.
  cbv zeta. split; [|split].
  - unfold TerrainShader.fragment, TerrainShader.material.
    cbn [TerrainShader.clipThreshold].
    destruct (Rltb vDisplacement 0.15) eqn:E.
    + apply Rltb_true in E. tauto.
    + apply Rltb_false in E. split; [discriminate | lra].
  - unfold TerrainShader.vertex, TerrainShader.material.
    cbn [TerrainShader.displacementScale]. f_equal.
    apply IslandSpec.vec3_eq; lra.
  - intros c. unfold TerrainShader.fragment.
    replace (TerrainShader.clipThreshold (TerrainShader.material species season))
      with 0.15 by reflexivity.
    destruct (Rltb vDisplacement 0.15) eqn:E; [discriminate|].
    apply Rltb_false in E. cbv zeta. intros [= <-].
    set (diffuse := Rmax _ 0.3).
    assert (0.3 <= diffuse) by apply Rmax_r.
    exists ((0.7 + vDisplacement * 0.5) * diffuse). split; [nra|].
    apply IslandSpec.vec3_eq; apply Rmult_assoc.
Qed.

Lemma vegetationHealth_monotone (sp1 sp2 : list Species) (season : string) :
  sp1 <> [] -> sp2 <> [] ->
  (totalProducerPopulation sp1 <= totalProducerPopulation sp2)%Z ->
  uniform_vegetationHealth sp1 season <= uniform_vegetationHealth sp2 season.
Proof.
  intros H1 H2 Hle.
  destruct sp1 as [|s1 r1]; [done|]. destruct sp2 as [|s2 r2]; [done|].
  rewrite !TerrainSpec.vegetationHealth_nonempty.
  apply IZR_le in Hle.
  apply Rle_min_compat_l. lra.
Qed.

Lemma healthBlend_channels (baseColor : Vec3) (h1 h2 : R) :
  0 <= vx baseColor -> 0 <= vy baseColor -> 0 <= vz baseColor -> h1 <= h2 ->
  vx (healthBlend baseColor h2) <= vx (healthBlend baseColor h1)
  /\ vy (healthBlend baseColor h1) <= vy (healthBlend baseColor h2)
  /\ vz (healthBlend baseColor h1) <= vz (healthBlend baseColor h2).
Proof.
  destruct baseColor as [[r g] b]. unfold healthBlend, mix, vx, vy, vz.
  cbn [fst snd]. intros Hr Hg Hb Hh. repeat split; nra.
Qed.

(** X11.  For a colour of the map with no negative channel, a higher
    vegetation health gives a blend that is no less green, no less blue and
    no more red; and of two species lists that are not empty, the one with
    the larger total population of producers has the higher vegetation
    health, so more producers never make the terrain less green. *)
Theorem more_producers_greener
    (baseColor : Vec3) (sp1 sp2 : list Species) (season : string) :
  0 <= vx baseColor -> 0 <= vy baseColor -> 0 <= vz baseColor ->
  sp1 <> [] -> sp2 <> [] ->
  (totalProducerPopulation sp1 <= totalProducerPopulation sp2)%Z ->
  let h1 := uniform_vegetationHealth sp1 season in
  let h2 := uniform_vegetationHealth sp2 season in
  h1 <= h2
  /\ vx (healthBlend baseColor h2) <= vx (healthBlend baseColor h1)
  /\ vy (healthBlend baseColor h1) <= vy (healthBlend baseColor h2)
  /\ vz (healthBlend baseColor h1) <= vz (healthBlend baseColor h2).
Proof.
  intros Hr Hg Hb H1 H2 Hle h1 h2.
  assert (Hh : h1 <= h2) by now apply vegetationHealth_monotone.
  split; [exact Hh|]. now apply healthBlend_channels.
Qed.

Lemma more_producers_greener_witness :
  uniform_vegetationHealth [mkSpecies "producer" 2000] "summer"
  <= uniform_vegetationHealth [mkSpecies "producer" 5000; mkSpecies "herbivore" 40] "summer".
Proof.
  refine (proj1 (more_producers_greener (0.2, 0.6, 0.1)
                   [mkSpecies "producer" 2000]
                   [mkSpecies "producer" 5000; mkSpecies "herbivore" 40] "summer"
                   _ _ _ _ _ _));
    unfold vx, vy, vz; cbn [fst snd]; try lra; discriminate.
Defined.

End TerrainMore.

(** ** The ocean, further *)

Module WaterMore.
Import Notions.

Lemma clamp_range (x : R) : 0 <= clamp x 0 1 <= 1.
Proof.
  unfold clamp. split.
  - apply Rmin_glb; [apply Rmax_r | lra].
  - apply Rmin_r.
Qed.

Lemma clamp_monotone (x y : R) : x <= y -> clamp x 0 1 <= clamp y 0 1.
Proof.
  intros Hxy. unfold clamp. apply Rle_min_compat_r.
  apply Rmax_lub; [eapply Rle_trans; [exact Hxy | apply Rmax_l] | apply Rmax_r].
Qed.

Lemma clamp_low (x : R) : x <= 0 -> clamp x 0 1 = 0.
Proof. intros H. unfold clamp. rewrite Rmax_right by lra. apply Rmin_left. lra. Qed.

Lemma clamp_high (x : R) : 1 <= x -> clamp x 0 1 = 1.
Proof. intros H. unfold clamp. rewrite Rmax_left by lra. apply Rmin_right. lra. Qed.

Lemma clamp_pos (x : R) : 0 < x -> 0 < clamp x 0 1.
Proof.
  intros H. unfold clamp. apply Rmin_glb_lt; [|lra].
  eapply Rlt_le_trans; [exact H | apply Rmax_l].
Qed.

Lemma hermite_monotone (s t : R) :
  0 <= s -> s <= t -> t <= 1 -> s * s * (3 - 2 * s) <= t * t * (3 - 2 * t).
Proof.
  intros H0 Hst H1.
  assert (E : t * t * (3 - 2 * t) - s * s * (3 - 2 * s)
              = (t - s) * (3 * (t + s) - 2 * (t * t + t * s + s * s))) by ring.
  assert (0 <= 3 * (t + s) - 2 * (t * t + t * s + s * s)) by nra.
  assert (0 <= (t - s) * (3 * (t + s) - 2 * (t * t + t * s + s * s)))
    by (apply Rmult_le_pos; lra).
  lra.
Qed.

Section Smoothstep.

Variables edge0 edge1 : R.
Hypothesis edges : edge0 < edge1.

Lemma ratio_monotone (x y : R) :
  x <= y -> (x - edge0) / (edge1 - edge0) <= (y - edge0) / (edge1 - edge0).
Proof.
  intros Hxy. apply Rmult_le_compat_r; [|lra].
  left. apply Rinv_0_lt_compat. lra.
Qed.

Lemma smoothstep_range (x : R) : 0 <= smoothstep edge0 edge1 x <= 1.
Proof.
  unfold smoothstep. cbv zeta.
  pose proof (clamp_range ((x - edge0) / (edge1 - edge0))) as Ht.
  set (t := clamp _ 0 1) in *.
  pose proof (hermite_monotone 0 t ltac:(lra) ltac:(lra) ltac:(lra)).
  pose proof (hermite_monotone t 1 ltac:(lra) ltac:(lra) ltac:(lra)).
  lra.
Qed.

Lemma smoothstep_monotone (x y : R) :
  x <= y -> smoothstep edge0 edge1 x <= smoothstep edge0 edge1 y.
Proof.
  intros Hxy. unfold smoothstep. cbv zeta.
  pose proof (clamp_range ((x - edge0) / (edge1 - edge0))).
  pose proof (clamp_range ((y - edge0) / (edge1 - edge0))).
  apply hermite_monotone; [lra | | lra].
  apply clamp_monotone, ratio_monotone, Hxy.
Qed.

Lemma smoothstep_low (x : R) : x <= edge0 -> smoothstep edge0 edge1 x = 0.
Proof.
  intros Hx. unfold smoothstep. cbv zeta. rewrite clamp_low; [ring|].
  replace 0 with ((edge0 - edge0) / (edge1 - edge0)) by (field; lra).
  now apply ratio_monotone.
Qed.

Lemma smoothstep_high (x : R) : edge1 <= x -> smoothstep edge0 edge1 x = 1.
Proof.
  intros Hx. unfold smoothstep. cbv zeta. rewrite clamp_high; [ring|].
  replace 1 with ((edge1 - edge0) / (edge1 - edge0)) by (field; lra).
  now apply ratio_monotone.
Qed.

Lemma smoothstep_pos (x : R) : edge0 < x -> 0 < smoothstep edge0 edge1 x.
Proof.
  intros Hx. unfold smoothstep. cbv zeta.
  assert (0 < clamp ((x - edge0) / (edge1 - edge0)) 0 1).
  { apply clamp_pos. apply Rmult_lt_0_compat; [lra|].
    apply Rinv_0_lt_compat. lra. }
  pose proof (clamp_range ((x - edge0) / (edge1 - edge0))).
  set (t := clamp _ 0 1) in *.
  apply Rmult_lt_0_compat; [apply Rmult_lt_0_compat|]; lra.
Qed.

End Smoothstep.

(** X12.  The foam term of both water shaders lies in [[0,1]] and never
    decreases with the elevation of the wave; it is [0] up to the elevation
    [0.08], positive above it, and [1] from [0.12] on. *)
Theorem foam_band (v w : R) :
  WaterDark.foam v = Water.foam v
  /\ 0 <= Water.foam v <= 1
  /\ (v <= w -> Water.foam v <= Water.foam w)
  /\ (Water.foam v = 0 <-> v <= 0.08)
  /\ (Water.foam v = 1 <-> 0.12 <= v).
Proof.
  assert (He : 0.08 < 0.12) by lra.
  split; [reflexivity|]. split; [apply smoothstep_range|].
  split; [apply smoothstep_monotone; lra|]. split; split.
  - intros E. destruct (Rle_dec v 0.08) as [?|Hgt]; [assumption|].
    pose proof (smoothstep_pos 0.08 0.12 He v ltac:(lra)) as Hp.
    unfold Water.foam in E. lra.
  - apply smoothstep_low. lra.
  - apply WaterSpec.foam_saturated.
  - apply smoothstep_high. lra.
Qed.

Lemma sqrt_le_half (s a : R) : 0 <= a -> s <= a * a -> sqrt s <= a.
Proof.
  intros Ha Hs. rewrite <- (sqrt_square a Ha). now apply sqrt_le_1_alt.
Qed.

Lemma sqrt_ge_half (s a : R) : 0 <= a -> a * a <= s -> a <= sqrt s.
Proof.
  intros Ha Hs. rewrite <- (sqrt_square a Ha) at 1. now apply sqrt_le_1_alt.
Qed.

(** X13.  In the variant tinted by the health of the ecosystem, the alpha
    of a fragment lies between [0] and the opacity uniform; it is that
    opacity within the distance [0.35] of the centre of the plane, in
    texture coordinates (a squared distance of at most [0.1225]), and [0]
    from the distance [0.5] on (a squared distance of at least [0.25]), so
    along the whole border of the plane.  In the dark variant the alpha is the
    opacity uniform everywhere. *)
Theorem water_edge_fade (u : WaterShader.Uniforms) (vUv : R * R) (vElevation : R) :
  0 <= WaterShader.uOpacity u ->
  let alpha := (WaterShader.fragment u vUv vElevation).2 in
  let s := (vUv.1 - 0.5) ^ 2 + (vUv.2 - 0.5) ^ 2 in
  0 <= alpha <= WaterShader.uOpacity u
  /\ (s <= 0.1225 -> alpha = WaterShader.uOpacity u)
  /\ (0.25 <= s -> alpha = 0)
  /\ (vUv.1 = 0 \/ vUv.1 = 1 \/ vUv.2 = 0 \/ vUv.2 = 1 -> alpha = 0)
  /\ (WaterShader.fragmentDark u vUv vElevation).2 = WaterShader.uOpacity u.
Proof.
  intros Ho alpha s.
  assert (He : 0.7 < 1.0) by lra.
  assert (Ealpha : alpha
    = WaterShader.uOpacity u
      * (1.0 - smoothstep 0.7 1.0 (sqrt ((vUv.1 - 0.5) * (vUv.1 - 0.5)
                                          + (vUv.2 - 0.5) * (vUv.2 - 0.5)) * 2.0)))
    by reflexivity.
  replace ((vUv.1 - 0.5) * (vUv.1 - 0.5) + (vUv.2 - 0.5) * (vUv.2 - 0.5))
    with s in Ealpha by (unfold s; ring).
  pose proof (smoothstep_range 0.7 1.0 (sqrt s * 2.0)) as Hr.
  assert (Hfar : 0.25 <= s -> alpha = 0).
  { intros Hs. rewrite Ealpha, smoothstep_high; [lra | lra |].
    pose proof (sqrt_ge_half s 0.5 ltac:(lra) ltac:(lra)). lra. }
  split; [rewrite Ealpha; split; nra|]. split; [|split; [exact Hfar|split]].
  - intros Hs. rewrite Ealpha, smoothstep_low; [lra | lra |].
    pose proof (sqrt_le_half s 0.35 ltac:(lra) ltac:(lra)). lra.
  - intros Hb. apply Hfar. unfold s. cbn [pow].
    pose proof (Rle_0_sqr (vUv.1 - 0.5)) as H1.
    pose proof (Rle_0_sqr (vUv.2 - 0.5)) as H2. unfold Rsqr in H1, H2.
    destruct Hb as [E|[E|[E|E]]]; rewrite E in *; lra.
  - reflexivity.
Qed.

Lemma water_edge_fade_witness :
  (WaterShader.fragment (WaterShader.defaults hexColor) (0, 1 / 3) 0).2 = 0.
Proof.
  refine (proj1 (proj2 (proj2 (proj2
            (water_edge_fade (WaterShader.defaults hexColor) (0, 1 / 3) 0 _)))) _).
  - unfold WaterShader.defaults. cbn [WaterShader.uOpacity]. lra.
  - left. reflexivity.
Defined.

Lemma sin_product_range (a b : R) : -1 <= sin a * sin b <= 1.
Proof.
  pose proof (SIN_bound a). pose proof (SIN_bound b).
  split; nra.
Qed.

(** X14.  On the flat water plane the factor that blends the deep and the
    shallow colour lies in [[-0.1, 1.1]], and inside [[0,1]] exactly for
    wave elevations in [[-0.1, 0.1]]: beyond them the blend runs past its
    two colours.  The foam colour enters with a weight of at most [0.3],
    and the shimmer moves every channel by the same amount, of at most
    [0.02]. *)
Theorem water_fragment_color
    (u : WaterShader.Uniforms) (vUv : R * R) (x y t : R) :
  let v := Water.vElevation (x, y, 0) t in
  let f := WaterShader.depthFactor v in
  let w := Water.foam v * 0.3 in
  let c := WaterShader.fragmentColor u vUv v in
  let deep := WaterShader.uDeepColor u in
  let shallow := WaterShader.uColor u in
  let foam := WaterShader.uFoamColor u in
  -0.1 <= f <= 1.1
  /\ (0 <= f <= 1 <-> -0.1 <= v <= 0.1)
  /\ 0 <= w <= 0.3
  /\ exists d,
       -0.02 <= d <= 0.02
       /\ red c = (red deep * (1 - f) + red shallow * f) * (1 - w) + red foam * w + d
       /\ green c
          = (green deep * (1 - f) + green shallow * f) * (1 - w) + green foam * w + d
       /\ blue c
          = (blue deep * (1 - f) + blue shallow * f) * (1 - w) + blue foam * w + d.
Proof.
  intros v f w c deep shallow foam.
  assert (Hv : -0.12 <= v <= 0.12).
  { unfold v, Water.vElevation, vz. cbn [snd].
    pose proof (WaterSpec.displacement_bounds (x, y, 0) t). lra. }
  assert (Ef : f = v * 5.0 + 0.5) by reflexivity.
  pose proof (smoothstep_range 0.08 0.12 v) as Hfoam. fold (Water.foam v) in Hfoam.
  split; [lra|]. split; [rewrite Ef; split; intros; lra|]. split; [unfold w; lra|].
  exists (WaterShader.shimmer u vUv * 0.02). split.
  - pose proof (sin_product_range (vUv.1 * 50.0 + WaterShader.uTime u)
                  (vUv.2 * 50.0 + WaterShader.uTime u * 0.7)) as Hs.
    unfold WaterShader.shimmer. lra.
  - repeat split; reflexivity.
Qed.

Lemma lerp_0 (a b : Color) : lerp a b 0 = a.
Proof. destruct a as [r g bl]. unfold lerp. cbn [red green blue]. f_equal; ring. Qed.

Lemma lerp_1 (a b : Color) : lerp a b 1 = b.
Proof.
  destruct a as [r g bl], b as [r' g' bl']. unfold lerp. cbn [red green blue].
  f_equal; ring.
Qed.

(** X15.  The frame callback does nothing before the material is mounted.
    Once it is, the health-tinted variant overwrites all five uniforms,
    whatever they held: the time with the elapsed time, the colours and the
    opacity with those of the [colors] memo, which at full health are the
    colours the material was declared with and the opacity [0.95], not the
    declared [0.92], and at no health the unhealthy colours and [0.9].  The
    dark variant changes the time only. *)
Theorem water_uniforms_each_frame
    (parseColor : string -> Color) (ecosystemHealth elapsedTime : R)
    (u0 u0' : WaterShader.Uniforms) :
  let colors := Water.colors parseColor ecosystemHealth in
  let declared := WaterShader.defaults parseColor in
  WaterShader.useFrame colors elapsedTime None = None
  /\ WaterShader.useFrameDark elapsedTime None = None
  /\ WaterShader.useFrame colors elapsedTime (Some u0)
     = WaterShader.useFrame colors elapsedTime (Some u0')
  /\ (exists u,
        WaterShader.useFrame colors elapsedTime (Some u0) = Some u
        /\ WaterShader.uTime u = elapsedTime
        /\ WaterShader.uOpacity u = 0.9 + ecosystemHealth * 0.05
        /\ (ecosystemHealth = 1 ->
            WaterShader.uColor u = WaterShader.uColor declared
            /\ WaterShader.uDeepColor u = WaterShader.uDeepColor declared
            /\ WaterShader.uFoamColor u = WaterShader.uFoamColor declared
            /\ WaterShader.uOpacity u = 0.95
            /\ WaterShader.uOpacity declared = 0.92)
        /\ (ecosystemHealth = 0 ->
            WaterShader.uColor u = parseColor "#4A5D4A"
            /\ WaterShader.uDeepColor u = parseColor "#2F3D2F"
            /\ WaterShader.uFoamColor u = parseColor "#6B7B6B"
            /\ WaterShader.uOpacity u = 0.9))
  /\ (exists u,
        WaterShader.useFrameDark elapsedTime (Some u0) = Some u
        /\ WaterShader.uTime u = elapsedTime
        /\ WaterShader.uColor u = WaterShader.uColor u0
        /\ WaterShader.uDeepColor u = WaterShader.uDeepColor u0
        /\ WaterShader.uFoamColor u = WaterShader.uFoamColor u0
        /\ WaterShader.uOpacity u = WaterShader.uOpacity u0).
Proof.
  cbv zeta. do 3 (split; [reflexivity|]). split.
  - eexists. split; [reflexivity|]. split; [reflexivity|]. split; [reflexivity|].
    unfold Water.colors, WaterShader.defaults.
    cbn [WaterShader.uColor WaterShader.uDeepColor WaterShader.uFoamColor
         WaterShader.uOpacity Water.color Water.deepColor Water.foamColor
         Water.opacity].
    split; intros ->.
    + replace (1 - 1) with 0 by ring. rewrite !lerp_0.
      repeat split; try reflexivity; lra.
    + replace (1 - 0) with 1 by ring. rewrite !lerp_1.
      repeat split; try reflexivity; lra.
  - eexists. repeat split; reflexivity.
Qed.

End WaterMore.

(** ** The application *)

Module AppMore.
Import App.

(** The state a failed [handleLoad] leaves. *)
Definition loadFailed (message : string) (st : State) : State :=
  setIsLoading false
    (setError (Some ("Failed to load: " +:+ message))
       (setError None (setIsLoading true st))).

Lemma getField_not_null typeError (v : JSON) key :
  v <> JNull -> exists r, getField typeError v key = Ok r.
Proof. destruct v; intros H; try done; simpl; eauto. Qed.

Lemma ecosystemToLoad_not_null typeError (saveData toLoad : JSON) :
  ecosystemToLoad typeError saveData = Ok toLoad -> saveData <> JNull.
Proof. intros H ->. discriminate H. Qed.

(** [handleLoad], given how each of its steps ends. *)
Lemma handleLoad_thrown typeError JSON_parse loadEcosystem err st :
  handleLoad typeError JSON_parse loadEcosystem (Throw err) st
  = loadFailed (errorMessage err) st.
Proof. reflexivity. Qed.

Lemma handleLoad_unparsed typeError JSON_parse loadEcosystem text st :
  JSON_parse text = None ->
  handleLoad typeError JSON_parse loadEcosystem (Ok text) st
  = loadFailed "Invalid JSON file" st.
Proof. intros H. unfold handleLoad, bindR. now rewrite H. Qed.

Lemma handleLoad_unrecognised typeError JSON_parse loadEcosystem text saveData err st :
  JSON_parse text = Some saveData ->
  ecosystemToLoad typeError saveData = Throw err ->
  handleLoad typeError JSON_parse loadEcosystem (Ok text) st
  = loadFailed (errorMessage err) st.
Proof. intros H1 H2. unfold handleLoad, bindR. now rewrite H1, H2. Qed.

Lemma handleLoad_refused typeError JSON_parse loadEcosystem text saveData toLoad err st :
  JSON_parse text = Some saveData ->
  ecosystemToLoad typeError saveData = Ok toLoad ->
  loadEcosystem toLoad = Throw err ->
  handleLoad typeError JSON_parse loadEcosystem (Ok text) st
  = loadFailed (errorMessage err) st.
Proof. intros H1 H2 H3. unfold handleLoad, bindR. now rewrite H1, H2, H3. Qed.

Lemma handleLoad_loaded typeError JSON_parse loadEcosystem text saveData toLoad
    loaded ev nar st :
  JSON_parse text = Some saveData ->
  ecosystemToLoad typeError saveData = Ok toLoad ->
  loadEcosystem toLoad = Ok loaded ->
  getField typeError saveData "events" = Ok ev ->
  getField typeError saveData "narration" = Ok nar ->
  handleLoad typeError JSON_parse loadEcosystem (Ok text) st
  = mkState (Some loaded) false (orElse ev (JArr []))
      (orElse nar (JStr "Save file loaded successfully!")) (JArr []) None
      (sidebarOpen st).
Proof.
  intros H1 H2 H3 H4 H5. unfold handleLoad, bindR.
  now rewrite H1, H2, H3, H4, H5.
Qed.

(** [handleLoad] ends in one of two states. *)
Lemma handleLoad_cases typeError JSON_parse loadEcosystem fileText st :
  (exists message,
     handleLoad typeError JSON_parse loadEcosystem fileText st = loadFailed message st)
  \/ (exists text saveData toLoad loaded ev nar,
        fileText = Ok text
        /\ JSON_parse text = Some saveData
        /\ ecosystemToLoad typeError saveData = Ok toLoad
        /\ loadEcosystem toLoad = Ok loaded
        /\ getField typeError saveData "events" = Ok ev
        /\ getField typeError saveData "narration" = Ok nar
        /\ handleLoad typeError JSON_parse loadEcosystem fileText st
           = mkState (Some loaded) false (orElse ev (JArr []))
               (orElse nar (JStr "Save file loaded successfully!")) (JArr []) None
               (sidebarOpen st)).
Proof.
  destruct fileText as [text|err].
  2:{ left. eexists. apply handleLoad_thrown. }
  destruct (JSON_parse text) as [saveData|] eqn:Hparse.
  2:{ left. eexists. now apply handleLoad_unparsed. }
  destruct (ecosystemToLoad typeError saveData) as [toLoad|err] eqn:Hto.
  2:{ left. eexists. eapply handleLoad_unrecognised; eassumption. }
  destruct (loadEcosystem toLoad) as [loaded|err] eqn:Hload.
  2:{ left. eexists. eapply handleLoad_refused; eassumption. }
  pose proof (ecosystemToLoad_not_null _ _ _ Hto) as Hnn.
  destruct (getField_not_null typeError saveData "events" Hnn) as [ev Hev].
  destruct (getField_not_null typeError saveData "narration" Hnn) as [nar Hnar].
  right. exists text, saveData, toLoad, loaded, ev, nar.
  repeat split; try assumption. eapply handleLoad_loaded; eassumption.
Qed.

(** X16.  [handleLoad] either loads or leaves the simulation as it was.
    It loads exactly when the file was read, its text parsed, a value to
    send was found in it and the backend accepted that value: then the
    ecosystem is the state the backend returned, the events and the
    narration are those of the file, or the empty list and a success message
    where the file has none, and the warnings and the error are cleared.
    When one of the four steps fails (the file cannot be read, its text does
    not parse, no value to send is found, the backend refuses), the
    ecosystem, events, narration and warnings are unchanged and the error is
    [Failed to load: ] followed by the message of that step.  So the error
    is cleared exactly when all four steps went through.  Either way the
    loading flag ends false and the sidebar is as it was. *)
Theorem handleLoad_all_or_nothing
    (typeError : string) (JSON_parse : string -> option JSON)
    (loadEcosystem : JSON -> Result JSON) (fileText : Result string) (st : State) :
  let st' := handleLoad typeError JSON_parse loadEcosystem fileText st in
  let accepted := fun (saveData loaded : JSON) =>
    exists text toLoad,
      fileText = Ok text
      /\ JSON_parse text = Some saveData
      /\ ecosystemToLoad typeError saveData = Ok toLoad
      /\ loadEcosystem toLoad = Ok loaded in
  let failed := fun (message : string) =>
    error st' = Some ("Failed to load: " +:+ message)
    /\ ecosystem st' = ecosystem st
    /\ events st' = events st
    /\ narration st' = narration st
    /\ warnings st' = warnings st in
  isLoading st' = false
  /\ sidebarOpen st' = sidebarOpen st
  /\ (forall saveData loaded,
        accepted saveData loaded ->
        exists ev nar,
          getField typeError saveData "events" = Ok ev
          /\ getField typeError saveData "narration" = Ok nar
          /\ ecosystem st' = Some loaded
          /\ events st' = orElse ev (JArr [])
          /\ narration st' = orElse nar (JStr "Save file loaded successfully!")
          /\ warnings st' = JArr []
          /\ error st' = None)
  /\ (forall err, fileText = Throw err -> failed (errorMessage err))
  /\ (forall text,
        fileText = Ok text -> JSON_parse text = None -> failed "Invalid JSON file")
  /\ (forall text saveData err,
        fileText = Ok text -> JSON_parse text = Some saveData ->
        ecosystemToLoad typeError saveData = Throw err ->
        failed (errorMessage err))
  /\ (forall text saveData toLoad err,
        fileText = Ok text -> JSON_parse text = Some saveData ->
        ecosystemToLoad typeError saveData = Ok toLoad ->
        loadEcosystem toLoad = Throw err ->
        failed (errorMessage err))
  /\ (error st' = None <-> exists saveData loaded, accepted saveData loaded)
  /\ ((exists message, failed message)
      <-> ~ exists saveData loaded, accepted saveData loaded).
Proof.
  cbv zeta.
  assert (Hfail : forall message,
            handleLoad typeError JSON_parse loadEcosystem fileText st
            = loadFailed message st ->
            error (handleLoad typeError JSON_parse loadEcosystem fileText st)
            = Some ("Failed to load: " +:+ message)
            /\ ecosystem (handleLoad typeError JSON_parse loadEcosystem fileText st)
               = ecosystem st
            /\ events (handleLoad typeError JSON_parse loadEcosystem fileText st)
               = events st
            /\ narration (handleLoad typeError JSON_parse loadEcosystem fileText st)
               = narration st
            /\ warnings (handleLoad typeError JSON_parse loadEcosystem fileText st)
               = warnings st).
  { intros message ->. repeat split; reflexivity. }
  assert (Hok : forall saveData loaded,
            (exists text toLoad,
               fileText = Ok text
               /\ JSON_parse text = Some saveData
               /\ ecosystemToLoad typeError saveData = Ok toLoad
               /\ loadEcosystem toLoad = Ok loaded) ->
            exists ev nar,
              getField typeError saveData "events" = Ok ev
              /\ getField typeError saveData "narration" = Ok nar
              /\ handleLoad typeError JSON_parse loadEcosystem fileText st
                 = mkState (Some loaded) false (orElse ev (JArr []))
                     (orElse nar (JStr "Save file loaded successfully!")) (JArr [])
                     None (sidebarOpen st)).
  { intros saveData loaded (text & toLoad & -> & H2 & H3 & H4).
    pose proof (ecosystemToLoad_not_null _ _ _ H3) as Hnn.
    destruct (getField_not_null typeError saveData "events" Hnn) as [ev Hev].
    destruct (getField_not_null typeError saveData "narration" Hnn) as [nar Hnar].
    exists ev, nar. split; [exact Hev|]. split; [exact Hnar|].
    eapply handleLoad_loaded; eassumption. }
  assert (Hcases := handleLoad_cases typeError JSON_parse loadEcosystem fileText st).
  split; [|split; [|split; [|split; [|split; [|split; [|split; [|split]]]]]]].
  - destruct Hcases as [(message & ->) | (? & ? & ? & ? & ? & ? & _ & _ & _ & _ & _ & _ & ->)];
      reflexivity.
  - destruct Hcases as [(message & ->) | (? & ? & ? & ? & ? & ? & _ & _ & _ & _ & _ & _ & ->)];
      reflexivity.
  - intros saveData loaded Hacc.
    destruct (Hok saveData loaded Hacc) as (ev & nar & Hev & Hnar & ->).
    exists ev, nar. repeat split; assumption || reflexivity.
  - intros err ->. apply Hfail, handleLoad_thrown.
  - intros text -> Hparse. apply Hfail. now apply handleLoad_unparsed.
  - intros text saveData err -> Hparse Hto. apply Hfail.
    eapply handleLoad_unrecognised; eassumption.
  - intros text saveData toLoad err -> Hparse Hto Hload. apply Hfail.
    eapply handleLoad_refused; eassumption.
  - split.
    + destruct Hcases as [(message & ->) | (text & saveData & toLoad & loaded & ? & ?
                                            & H1 & H2 & H3 & H4 & _)].
      * discriminate.
      * intros _. exists saveData, loaded, text, toLoad. auto.
    + intros (saveData & loaded & Hacc).
      destruct (Hok saveData loaded Hacc) as (ev & nar & _ & _ & ->). reflexivity.
  - split.
    + intros (message & Herr & _) (saveData & loaded & Hacc).
      destruct (Hok saveData loaded Hacc) as (ev & nar & _ & _ & E).
      rewrite E in Herr. discriminate.
    + intros Hnot.
      destruct Hcases as [(message & E) | (text & saveData & toLoad & loaded & ? & ?
                                           & H1 & H2 & H3 & H4 & _)].
      * exists message. now apply Hfail.
      * exfalso. apply Hnot. exists saveData, loaded, text, toLoad. auto.
Qed.

Lemma truthy_and (a b : option JSON) :
  truthy a && truthy b = true <-> truthy a = true /\ truthy b = true.
Proof. apply andb_true_iff. Qed.

(** X17.  What [handleLoad] sends to the backend for a file that parsed to
    an object.  A file with a truthy [version] and a truthy [ecosystem] is a
    save file: its [ecosystem] is sent, also when the file has [species] and
    [tiles] of its own.  Any other file with a truthy [species] and a truthy
    [tiles] is sent whole, so a save file whose [version] is [0] is read as
    a bare ecosystem or not at all.  A file with neither is refused. *)
Theorem handleLoad_formats
    (typeError : string) (fields : list (string * JSON)) :
  let saveData := JObj fields in
  let version := assoc "version" fields in
  let ecosystem := assoc "ecosystem" fields in
  let species := assoc "species" fields in
  let tiles := assoc "tiles" fields in
  (truthy version = true -> truthy ecosystem = true ->
   exists e, ecosystem = Some e /\ ecosystemToLoad typeError saveData = Ok e)
  /\ (truthy version = false \/ truthy ecosystem = false ->
      truthy species = true -> truthy tiles = true ->
      ecosystemToLoad typeError saveData = Ok saveData)
  /\ (truthy version = false \/ truthy ecosystem = false ->
      truthy species = false \/ truthy tiles = false ->
      ecosystemToLoad typeError saveData
      = Throw (ErrorObject "Invalid save file format - missing required data")).
Proof.
  cbv zeta. unfold ecosystemToLoad, bindR. cbn [getField].
  split; [|split].
  - intros Hv He. rewrite Hv, He. cbn [andb].
    destruct (assoc "ecosystem" fields) as [e|]; [|discriminate He]. eauto.
  - intros Hsave Hs Ht.
    replace (truthy (assoc "version" fields) && truthy (assoc "ecosystem" fields))
      with false by (destruct Hsave as [-> | ->]; [reflexivity | now rewrite andb_false_r]).
    now rewrite Hs, Ht.
  - intros Hsave Hraw.
    replace (truthy (assoc "version" fields) && truthy (assoc "ecosystem" fields))
      with false by (destruct Hsave as [-> | ->]; [reflexivity | now rewrite andb_false_r]).
    replace (truthy (assoc "species" fields) && truthy (assoc "tiles" fields))
      with false by (destruct Hraw as [-> | ->]; [reflexivity | now rewrite andb_false_r]).
    reflexivity.
Qed.

Lemma handleLoad_formats_witness :
  exists e,
    assoc "ecosystem" [ ("version", JNum 1); ("ecosystem", JObj []);
                        ("species", JArr []); ("tiles", JArr []) ] = Some e
    /\ ecosystemToLoad "TypeError"
         (JObj [ ("version", JNum 1); ("ecosystem", JObj []);
                 ("species", JArr []); ("tiles", JArr []) ]) = Ok e.
Proof.
  refine (proj1 (handleLoad_formats "TypeError"
                   [ ("version", JNum 1); ("ecosystem", JObj []);
                     ("species", JArr []); ("tiles", JArr []) ]) _ _).
  - simpl assoc. cbn [truthy]. destruct (Req_dec_T 1 0) as [H|_]; [lra | reflexivity].
  - reflexivity.
Defined.

(** X18.  The messages of a failed [handleLoad]: a file whose text is not
    JSON gives [Invalid JSON file]; a text that parses to [null] gives the
    message of the [TypeError] that reading a property of [null] throws; a
    text that parses to a boolean, a number, a string or an array gives
    [Invalid save file format - missing required data], without a call of
    the backend; a rejection with an [Error] gives its message, and one with
    any other value gives [Unknown error]. *)
Theorem handleLoad_messages
    (typeError : string) (JSON_parse : string -> option JSON)
    (loadEcosystem loadEcosystem' : JSON -> Result JSON) (text : string)
    (st : State) :
  (JSON_parse text = None ->
   error (handleLoad typeError JSON_parse loadEcosystem (Ok text) st)
   = Some "Failed to load: Invalid JSON file")
  /\ (JSON_parse text = Some JNull ->
      error (handleLoad typeError JSON_parse loadEcosystem (Ok text) st)
      = Some ("Failed to load: " +:+ typeError))
  /\ (forall v,
        JSON_parse text = Some v ->
        (exists b, v = JBool b) \/ (exists n, v = JNum n) \/ (exists s, v = JStr s)
        \/ (exists l, v = JArr l) ->
        error (handleLoad typeError JSON_parse loadEcosystem (Ok text) st)
        = Some "Failed to load: Invalid save file format - missing required data"
        /\ handleLoad typeError JSON_parse loadEcosystem' (Ok text) st
           = handleLoad typeError JSON_parse loadEcosystem (Ok text) st)
  /\ (forall message,
        error (handleLoad typeError JSON_parse loadEcosystem
                 (Throw (ErrorObject message)) st)
        = Some ("Failed to load: " +:+ message))
  /\ error (handleLoad typeError JSON_parse loadEcosystem (Throw OtherValue) st)
     = Some "Failed to load: Unknown error".
Proof.
  split; [|split; [|split; [|split]]].
  - intros H. now rewrite handleLoad_unparsed.
  - intros H. now rewrite (handleLoad_unrecognised _ _ _ _ JNull (ErrorObject typeError)).
  - intros v Hparse Hv.
    assert (Hto : ecosystemToLoad typeError v
                  = Throw (ErrorObject "Invalid save file format - missing required data")).
    { destruct Hv as [[b ->]|[[n ->]|[[s ->]|[l ->]]]]; reflexivity. }
    rewrite !(handleLoad_unrecognised _ _ _ _ _ _ _ Hparse Hto). split; reflexivity.
  - intros message. reflexivity.
  - reflexivity.
Qed.

(** X19.  A file written by [handleSave] loads back: [handleLoad] takes it
    for a save file and sends the saved ecosystem to the backend.  When the
    backend accepts it, the ecosystem is the state the backend returns, the
    events are the saved events when they are a list, and the narration is
    the saved narration when it is a string that is not empty; an empty
    narration comes back as the success message. *)
Theorem save_then_load
    (typeError savedAt text : string) (JSON_parse : string -> option JSON)
    (loadEcosystem : JSON -> Result JSON) (st st0 : State) (data loaded : JSON) :
  saveData savedAt st = Some data ->
  JSON_parse text = Some data ->
  (forall e, ecosystem st = Some e -> loadEcosystem e = Ok loaded) ->
  let st' := handleLoad typeError JSON_parse loadEcosystem (Ok text) st0 in
  ecosystem st' = Some loaded
  /\ error st' = None
  /\ warnings st' = JArr []
  /\ isLoading st' = false
  /\ events st' = orElse (Some (events st)) (JArr [])
  /\ narration st' = orElse (Some (narration st)) (JStr "Save file loaded successfully!")
  /\ (forall l, events st = JArr l -> events st' = events st)
  /\ (forall s, narration st = JStr s -> s <> "" -> narration st' = narration st)
  /\ (narration st = JStr "" ->
      narration st' = JStr "Save file loaded successfully!").
Proof.
  intros Hsave Hparse Hload st'.
  unfold saveData in Hsave.
  destruct (truthy (ecosystem st)) eqn:Ht; [|discriminate Hsave].
  destruct (ecosystem st) as [e|] eqn:He; [|discriminate Ht].
  cbn [negb] in Hsave. injection Hsave as <-.
  assert (Hto : ecosystemToLoad typeError
                  (JObj [ ("version", JNum 1); ("savedAt", JStr savedAt);
                          ("ecosystem", e); ("events", events st);
                          ("narration", narration st) ]) = Ok e).
  { unfold ecosystemToLoad, bindR. cbn [getField]. simpl assoc.
    rewrite Ht. cbn [truthy]. destruct (Req_dec_T 1 0) as [H|_]; [lra|]. reflexivity. }
  assert (Hrun : st' = mkState (Some loaded) false (orElse (Some (events st)) (JArr []))
                         (orElse (Some (narration st))
                            (JStr "Save file loaded successfully!"))
                         (JArr []) None (sidebarOpen st0)).
  { unfold st'. eapply handleLoad_loaded; eauto. }
  rewrite Hrun. cbn [ecosystem error warnings isLoading events narration].
  do 6 (split; [reflexivity|]). split; [|split].
  - intros l ->. reflexivity.
  - intros s -> Hs. cbn. destruct (decide (s = "")); [done | reflexivity].
  - intros ->. reflexivity.
Qed.

Lemma save_then_load_witness :
  let st := mkState (Some (JObj [ ("turn", JNum 3) ])) false (JArr [ JStr "rain" ])
              (JStr "Spring came.") (JArr []) None true in
  let data := JObj [ ("version", JNum 1); ("savedAt", JStr "2025");
                     ("ecosystem", JObj [ ("turn", JNum 3) ]);
                     ("events", JArr [ JStr "rain" ]);
                     ("narration", JStr "Spring came.") ] in
  let st' := handleLoad "TypeError" (fun _ => Some data) (fun e => Ok e) (Ok "file")
               initial in
  ecosystem st' = Some (JObj [ ("turn", JNum 3) ])
  /\ events st' = events st
  /\ narration st' = narration st.
Proof.
  intros st data st'.
  destruct (save_then_load "TypeError" "2025" "file" (fun _ => Some data)
              (fun e => Ok e) st initial data (JObj [ ("turn", JNum 3) ]))
    as (H1 & _ & _ & _ & _ & _ & H2 & H3 & _).
  - reflexivity.
  - reflexivity.
  - intros e [= <-]. reflexivity.
  - split; [exact H1|]. split.
    + exact (H2 _ eq_refl).
    + apply (H3 "Spring came."); [reflexivity | discriminate].
Defined.

(** X20.  [handleAdvanceTurn] does nothing at all while there is no
    ecosystem.  With one, it ends with the loading flag false; when the
    backend answers, the ecosystem, events, narration and warnings are those
    of the answer and the error is cleared; when it fails, they are
    unchanged and the error is the fixed message. *)
Theorem handleAdvanceTurn_outcomes
    {I : Type} (advanceTurn : option I -> Result TurnResult)
    (intervention : option I) (st : State) :
  let st' := handleAdvanceTurn advanceTurn intervention st in
  (truthy (ecosystem st) = false -> st' = st)
  /\ (truthy (ecosystem st) = true ->
      isLoading st' = false
      /\ sidebarOpen st' = sidebarOpen st
      /\ match advanceTurn intervention with
         | Ok result =>
             ecosystem st' = Some (new_state result)
             /\ events st' = turn_events result
             /\ narration st' = turn_narration result
             /\ warnings st' = turn_warnings result
             /\ error st' = None
         | Throw _ =>
             ecosystem st' = ecosystem st
             /\ events st' = events st
             /\ narration st' = narration st
             /\ warnings st' = warnings st
             /\ error st'
                = Some "Failed to advance simulation. Check the backend logs."
         end).
Proof.
  cbv zeta. unfold handleAdvanceTurn. split; intros Ht; rewrite Ht; cbn [negb].
  - reflexivity.
  - destruct (advanceTurn intervention); repeat split; reflexivity.
Qed.

Lemma truthy_object (fields : list (string * JSON)) : truthy (Some (JObj fields)) = true.
Proof. reflexivity. Qed.

(** X21.  [App] shows the main view exactly when it has an ecosystem.
    Without one it shows the spinner while loading, else the error page
    when there is an error, else nothing.  So from the initial state a
    failed start gives the error page with the connection message, and a
    start that succeeds gives the main view without a banner; from there a
    failed turn or a failed load keeps the main view and the ecosystem, and
    shows the message as a banner. *)
Theorem screens
    (typeError : string) (JSON_parse : string -> option JSON)
    (loadEcosystem : JSON -> Result JSON) (fileText : Result string)
    (state : JSON) (err : Thrown) (st : State) :
  truthy (Some state) = true ->
  let started := initializeEcosystem (fun _ => Ok state) initial in
  ((exists banner sidebar loading, render st = MainView banner sidebar loading)
   <-> truthy (ecosystem st) = true)
  /\ (truthy (ecosystem st) = false ->
      render st
      = if isLoading st then Spinner
        else if truthyError (error st) then ErrorPage (default "" (error st))
        else Nothing)
  /\ render (initializeEcosystem (fun _ => Throw err) initial)
     = ErrorPage
         "Failed to connect to backend. Make sure the server is running on localhost:8000"
  /\ render started = MainView None true false
  /\ render (handleAdvanceTurn (fun _ : option unit => Throw err) None started)
     = MainView (Some "Failed to advance simulation. Check the backend logs.")
         true false
  /\ (error (handleLoad typeError JSON_parse loadEcosystem fileText started) <> None ->
      exists message,
        render (handleLoad typeError JSON_parse loadEcosystem fileText started)
        = MainView (Some ("Failed to load: " +:+ message)) true false
        /\ ecosystem (handleLoad typeError JSON_parse loadEcosystem fileText started)
           = Some state).
Proof.
  intros Hstate started.
  assert (Hstarted : started
    = mkState (Some state) false (JArr [])
        (JStr ("A new ecosystem has been created. Click " +:+ quote +:+ "Advance Turn"
               +:+ quote +:+ " to begin the simulation."))
        (JArr []) None true) by reflexivity.
  split; [|split; [|split; [|split; [|split]]]].
  - unfold render. destruct (truthy (ecosystem st)); cbn [negb andb].
    + rewrite andb_false_r. split; [done | eauto].
    + split; [|discriminate].
      intros (b & sb & l & H).
      destruct (isLoading st); [discriminate|].
      rewrite andb_true_r in H. destruct (truthyError (error st)); discriminate.
  - intros Ht. unfold render. rewrite Ht. cbn [negb andb].
    destruct (isLoading st); [reflexivity|]. rewrite andb_true_r.
    destruct (truthyError (error st)); reflexivity.
  - reflexivity.
  - rewrite Hstarted. unfold render. cbn [ecosystem isLoading error sidebarOpen].
    rewrite Hstate. reflexivity.
  - rewrite Hstarted. unfold handleAdvanceTurn, render.
    cbn [ecosystem isLoading error sidebarOpen setError setIsLoading].
    rewrite Hstate. cbn [negb andb ecosystem isLoading error sidebarOpen
                         setError setIsLoading].
    rewrite Hstate. reflexivity.
  - intros Herr.
    destruct (handleLoad_cases typeError JSON_parse loadEcosystem fileText started)
      as [(message & E) | (? & ? & ? & ? & ? & ? & _ & _ & _ & _ & _ & _ & E)];
      rewrite E in Herr |- *.
    2:{ exfalso. apply Herr. reflexivity. }
    exists message. rewrite Hstarted. split; [|reflexivity].
    unfold render, loadFailed.
    cbn [ecosystem isLoading error sidebarOpen setError setIsLoading].
    rewrite Hstate. cbn [negb andb truthyError].
    destruct (decide _) as [E'|_]; [discriminate E' | reflexivity].
Qed.

Lemma screens_witness :
  render (initializeEcosystem (fun _ => Ok (JObj [ ("turn", JNum 0) ])) initial)
  = MainView None true false.
Proof.
  refine (proj1 (proj2 (proj2 (proj2
            (screens "TypeError" (fun _ => None) (fun e => Ok e) (Ok "")
               (JObj [ ("turn", JNum 0) ]) OtherValue initial _))))).
  reflexivity.
Defined.

End AppMore.
